(** * get-port-please: the port resolution cascade of [src/get-port.ts]

    A shallow embedding of [getPort], [getRandomPort], [waitForPort] and
    [checkPort].  The asynchronous functions become computations in a small
    state-and-error monad: the state is the outside world (sockets, clock,
    random source) together with the trace of what the program did to it
    (probes, sleeps, log lines); a rejected promise is a [Throw].

    JavaScript numbers are integers here ([Z]); NaN only appears as the
    result of [parseInt], where the source handles it.  Strings are ASCII. *)

From Stdlib Require Import ZArith List String Ascii Bool Lia DecimalString DecimalPos.
Import ListNotations.
Local Open Scope string_scope.
Local Open Scope list_scope.
Local Open Scope Z_scope.

(* ------------------------------------------------------------------ *)
(** * The JavaScript built-ins the source relies on *)

Module JS.

(** [!!n] for a number. *)
Definition truthy (n : Z) : bool := negb (n =? 0).

(** [!!s] for a string. *)
Definition truthy_string (s : string) : bool :=
  match s with EmptyString => false | _ => true end.

(** [!!b] for an optional boolean ([undefined] is falsy). *)
Definition truthy_flag (b : option bool) : bool :=
  match b with Some true => true | _ => false end.

(** [!!x] for [x : number | undefined]. *)
Definition truthy_opt (x : option Z) : bool :=
  match x with Some n => truthy n | None => false end.

(** [a ?? b]. *)
Definition nullish {A : Type} (a : option A) (b : A) : A :=
  match a with Some x => x | None => b end.

(** [a || b] on numbers, [a] possibly [undefined] or NaN. *)
Definition or_else (a : option Z) (b : Z) : Z :=
  match a with Some x => if truthy x then x else b | None => b end.

(** [`${n}`] and [n + ""] for a safe integer, below 2^53 in absolute
    value: the decimal digits, with a minus sign when negative.  Beyond
    that JavaScript rounds the digits, and from 1e21 on it prints an
    exponent; such numbers are outside this model. *)
Definition string_of_Z (n : Z) : string := NilZero.string_of_int (Z.to_int n).

(** [`${x}`] for [x : number | undefined]. *)
Definition string_of_opt (x : option Z) : string :=
  match x with Some n => string_of_Z n | None => "undefined" end.

(** [Array.prototype.join]. *)
Definition join (sep : string) (l : list string) : string := String.concat sep l.

Definition isWhiteSpace (c : ascii) : bool :=
  let n := nat_of_ascii c in
  ((n =? 9) || (n =? 10) || (n =? 11) || (n =? 12) || (n =? 13) || (n =? 32))%nat.

Fixpoint trimStart (s : string) : string :=
  match s with
  | String c r => if isWhiteSpace c then trimStart r else s
  | EmptyString => s
  end.

(** Value of a character as a digit (letters count from 10). *)
Definition digitValue (c : ascii) : option Z :=
  let n := nat_of_ascii c in
  if ((48 <=? n) && (n <=? 57))%nat then Some (Z.of_nat (n - 48))
  else if ((97 <=? n) && (n <=? 122))%nat then Some (Z.of_nat (n - 87))
  else if ((65 <=? n) && (n <=? 90))%nat then Some (Z.of_nat (n - 55))
  else None.

(** The longest prefix of radix-[radix] digits, read as a number;
    [acc] is [None] until a first digit has been read. *)
Fixpoint digits (radix : Z) (s : string) (acc : option Z) : option Z :=
  match s with
  | String c r =>
      match digitValue c with
      | Some d =>
          if d <? radix
          then digits radix r (Some (nullish acc 0 * radix + d))
          else acc
      | None => acc
      end
  | EmptyString => acc
  end.

(** [Number.parseInt(s)] without a radix; [None] is NaN. *)
Definition parseInt (s : string) : option Z :=
  let s := trimStart s in
  let '(sign, s) :=
    match s with
    | String "-" r => (-1, r)
    | String "+" r => (1, r)
    | _ => (1, s)
    end in
  let '(radix, s) :=
    match s with
    | String "0" (String "x" r) => (16, r)
    | String "0" (String "X" r) => (16, r)
    | _ => (10, s)
    end in
  option_map (Z.mul sign) (digits radix s None).

End JS.

(* ------------------------------------------------------------------ *)
(** * Data model ([types.ts] as [get-port.ts] uses it) *)

Definition PortNumber := Z.

(** [HostAddress = undefined | string]. *)
Definition HostAddress := option string.

(** The [host] argument of [checkPort]: [HostAddress | HostAddress[]]. *)
Inductive HostArg :=
| Host1 (h : HostAddress)
| Hosts (hs : list HostAddress).

(** A port range option: the empty array [[]] or the pair [[from, to]]. *)
Inductive PortRange :=
| NoRange
| Range (from to : PortNumber).

Definition range_length (r : PortRange) : Z :=
  match r with NoRange => 0 | Range _ _ => 2 end.

(** [range.join("-")]. *)
Definition range_join (r : PortRange) : string :=
  match r with
  | NoRange => ""
  | Range a b => JS.join "-" [JS.string_of_Z a; JS.string_of_Z b]
  end.

(** [Partial<GetPortOptions>]: [None] is an absent key. *)
Record UserOptions := {
  u_name : option string;
  u_random : option bool;
  u_port : option PortNumber;
  u_ports : option (list PortNumber);
  u_portRange : option PortRange;
  u_alternativePortRange : option PortRange;
  u_host : option string;
  u_verbose : option bool;
  u_public : option bool
}.

(** The object literal [{}]. *)
Definition no_options : UserOptions :=
  {| u_name := None; u_random := None; u_port := None; u_ports := None;
     u_portRange := None; u_alternativePortRange := None; u_host := None;
     u_verbose := None; u_public := None |}.

(** [GetPortInput = Partial<GetPortOptions> | number | string]. *)
Inductive GetPortInput :=
| InNumber (n : Z)
| InString (s : string)
| InOptions (o : UserOptions).

Record GetPortOptions := {
  name : string;
  random : bool;
  ports : list PortNumber;
  portRange : PortRange;
  alternativePortRange : PortRange;
  verbose : bool;
  port : PortNumber;
  host : HostAddress
}.

Record WaitForPortOptions := {
  delay : option Z;
  retries : option Z;
  w_host : HostAddress
}.

Record GetPortError := { message : string }.

(** What the program does to the outside world, in order. *)
Inductive Event :=
| Probe (p : PortNumber) (h : HostAddress) (bound : option PortNumber)
| Sleep (ms : Z)
| Log (msg : string).

(** The ports of the probes of a trace, in order. *)
Fixpoint probed (evs : list Event) : list PortNumber :=
  match evs with
  | [] => []
  | Probe p _ _ :: rest => p :: probed rest
  | _ :: rest => probed rest
  end.

(** [n] polling rounds of [waitForPort] that found the port free. *)
Definition rounds (p : PortNumber) (h : HostAddress) (ms : Z)
  (bound : list PortNumber) : list Event :=
  flat_map (fun q => [Probe p h (Some q); Sleep ms]) bound.

(* ------------------------------------------------------------------ *)
(** * The platform: everything [get-port.ts] imports or reads

    [_internal.ts], [unsafe-ports.ts] and [process.env] lie outside
    [get-port.ts]; the primitives below stand for them. *)

Class Platform := {
  (** sockets, clock and random source *)
  World : Type;
  (** the raw probe: try to listen on (port, host); the bound port, or
      [None] for [false] *)
  listen : World -> PortNumber -> HostAddress -> option PortNumber * World;
  (** [setTimeout]: let [ms] milliseconds pass *)
  elapse : World -> Z -> World;
  (** a random reordering of a list of ports *)
  draw_shuffle : World -> list PortNumber -> list PortNumber * World;
  isSafePort : PortNumber -> bool;
  _getLocalHosts : list HostAddress -> list HostAddress;
  _validateHostname : HostAddress -> option bool -> option bool -> HostAddress;
  _fmtOnHost : HostAddress -> string;
  (** [process.env.PORT] as [Number] reads it, and [process.env.HOST] *)
  env_PORT : option Z;
  env_HOST : option string
}.

(** The contract of the socket primitive and of host resolution (spec 2
    and 4.5): a successful bind reports a real port, which is the requested
    one unless port 0 was requested; the local host set contains the
    addresses it was given. *)
Record PlatformOk (P : Platform) : Prop := {
  listen_bound : forall w p h q w',
      listen w p h = (Some q, w') -> 1 <= q <= 65535 /\ (p <> 0 -> q = p);
  localHosts_given : forall l h, In h l -> In h (_getLocalHosts l)
}.

(* ------------------------------------------------------------------ *)
(** * The monad of the asynchronous functions *)

Section Monad.
Context {P : Platform}.

Record State := { world : World; trace : list Event }.

(** How an awaited promise settles. *)
Inductive result (A : Type) :=
| Ok (a : A)
| Throw (e : GetPortError).

Definition M (A : Type) := State -> result A * State.

Definition ret {A : Type} (a : A) : M A := fun st => (Ok A a, st).

Definition bind {A B : Type} (c : M A) (k : A -> M B) : M B :=
  fun st =>
    match c st with
    | (Ok _ a, st') => k a st'
    | (Throw _ e, st') => (Throw B e, st')
    end.

Definition throw {A : Type} (e : GetPortError) : M A := fun st => (Throw A e, st).

(** Act on the world and record the event. *)
Definition emit (e : Event) (w : World) : M unit :=
  fun st => (Ok unit tt, {| world := w; trace := trace st ++ [e] |}).

(** The events a computation adds to a trace. *)
Definition events_since (st st' : State) (evs : list Event) : Prop :=
  trace st' = trace st ++ evs.

End Monad.

Arguments Ok {A} a.
Arguments Throw {A} e.

Notation "x <- c ;; k" := (bind c (fun x => k))
  (at level 61, c at next level, right associativity).
Notation "c ;;; k" := (bind c (fun _ => k))
  (at level 61, right associativity).

(* ------------------------------------------------------------------ *)
(** * The program *)

Section Model.
Context {P : Platform}.

(** Modelled from the spec: [_tryPort] of [_internal.ts], the raw probe
    (spec 2, SocketProbe): it attempts to bind (port, host) and resolves
    to the bound port or [false].  Here it asks the platform's [listen]
    and records the probe. *)
Definition _tryPort (port : PortNumber) (host : HostAddress) : M (option PortNumber) :=
  fun st =>
    let '(r, w) := listen (world st) port host in
    (Ok r, {| world := w; trace := trace st ++ [Probe port host r] |}).

(** Modelled from the spec: [_log] of [_internal.ts]; a line is written
    only in verbose mode. *)
Definition _log (verbose : bool) (msg : string) : M unit :=
  fun st => if verbose then emit (Log msg) (world st) st else ret tt st.

(** [await new Promise((resolve) => setTimeout(resolve, delay))]. *)
Definition sleep (ms : Z) : M unit :=
  fun st => emit (Sleep ms) (elapse (world st) ms) st.

(** The integers [from], [from + 1], ..., [to]. *)
Definition ascending (from to : PortNumber) : list PortNumber :=
  map (fun i => from + Z.of_nat i) (seq 0 (Z.to_nat (to - from + 1))).

(** Modelled from the spec: [_generateRange] of [_internal.ts] (spec 4.2):
    nothing for an empty range, else every integer from start to end,
    shuffled when randomness is requested. *)
Definition _generateRange (range : PortRange) (random : bool) : M (list PortNumber) :=
  match range with
  | NoRange => ret []
  | Range from to =>
      if random
      then fun st =>
             let '(l, w) := draw_shuffle (world st) (ascending from to) in
             (Ok l, {| world := w; trace := trace st |})
      else ret (ascending from to)
  end.

(** The [for (const _host of host)] loop of [checkPort], lines 148-165;
    [port] is the loop-carried variable. *)
Fixpoint checkPort_loop (port : PortNumber) (hosts : list HostAddress)
  (verbose : option bool) : M (option PortNumber) :=
  match hosts with
  | [] => ret (Some port)
  | _host :: rest =>
      _port <- _tryPort port _host ;;
      match _port with
      | None =>
          (if (port <? 1024) && JS.truthy_flag verbose
           then _log (JS.truthy_flag verbose)
                  ("Unable to listen to the priviliged port "
                     ++ JS.string_of_Z port ++ " " ++ _fmtOnHost _host)
           else ret tt) ;;;
          ret None
      | Some q =>
          checkPort_loop (if (port =? 0) && negb (q =? 0) then q else port)
            rest verbose
      end
  end.

(** [checkPort], lines 137-166.  An argument [Host1 None] is [undefined],
    for which the default [process.env.HOST] is taken. *)
Definition checkPort (port : PortNumber) (host : HostArg)
  (verbose : option bool) : M (option PortNumber) :=
  let host := match host with Host1 None => Host1 env_HOST | _ => host end in
  let host :=
    match host with
    | Host1 None | Host1 (Some EmptyString) =>
        Hosts (_getLocalHosts [None; Some "0.0.0.0"])
    | _ => host
    end in
  match host with
  | Host1 h => _tryPort port h
  | Hosts hs => checkPort_loop port hs verbose
  end.

(** Modelled from the spec: [_findPort] of [_internal.ts] (spec 4.3):
    the candidates are tried in order with [checkPort]; the first one
    whose check succeeds is returned, none when all fail. *)
Fixpoint _findPort (ports : list PortNumber) (host : HostAddress)
  : M (option PortNumber) :=
  match ports with
  | [] => ret None
  | port :: rest =>
      r <- checkPort port (Host1 host) None ;;
      match r with
      | Some _ => ret (Some port)
      | None => _findPort rest host
      end
  end.

(** The error of lines 113-115. *)
Definition random_error (host : HostAddress) : GetPortError :=
  {| message := "Unable to find any random port " ++ _fmtOnHost host |}.

(** [getRandomPort], lines 110-118. *)
Definition getRandomPort (host : HostAddress) : M PortNumber :=
  port <- checkPort 0 (Host1 host) None ;;
  match port with
  | None => throw (random_error host)
  | Some port => ret port
  end.

(** The polling loop of [waitForPort], lines 126-131, with [index]
    iterations left. *)
Fixpoint waitForPort_loop (index : nat) (port : PortNumber) (host : HostAddress)
  (delay : Z) (timeout : GetPortError) : M unit :=
  match index with
  | O => throw timeout
  | S index' =>
      r <- _tryPort port host ;;
      match r with
      | None => ret tt
      | Some _ => sleep delay ;;; waitForPort_loop index' port host delay timeout
      end
  end.

(** The error of lines 132-134. *)
Definition timeout_error (port retries delay : Z) : GetPortError :=
  {| message := "Timeout waiting for port " ++ JS.string_of_Z port
                  ++ " after " ++ JS.string_of_Z retries
                  ++ " retries with " ++ JS.string_of_Z delay ++ "ms interval." |}.

(** [waitForPort], lines 120-135. *)
Definition waitForPort (port : PortNumber) (options : WaitForPortOptions) : M unit :=
  let delay := JS.or_else (delay options) 500 in
  let retries := JS.or_else (retries options) 4 in
  waitForPort_loop (Z.to_nat retries) port (w_host options) delay
    (timeout_error port retries delay).

(** Lines 25-27: the number or string shorthand. *)
Definition shorthand (_userOptions : GetPortInput) : UserOptions :=
  match _userOptions with
  | InNumber n =>
      {| u_name := None; u_random := None;
         u_port := Some (JS.or_else (JS.parseInt (JS.string_of_Z n ++ "")) 0);
         u_ports := None; u_portRange := None; u_alternativePortRange := None;
         u_host := None; u_verbose := None; u_public := None |}
  | InString s =>
      {| u_name := None; u_random := None;
         u_port := Some (JS.or_else (JS.parseInt (s ++ "")) 0);
         u_ports := None; u_portRange := None; u_alternativePortRange := None;
         u_host := None; u_verbose := None; u_public := None |}
  | InOptions o => o
  end.

(** Line 29. *)
Definition requested_port (_userOptions : UserOptions) : PortNumber :=
  JS.nullish (u_port _userOptions) (JS.nullish env_PORT 3000).

(** Lines 31-45: the defaults, overridden by the keys the caller gave. *)
Definition resolve (_userOptions : UserOptions) : GetPortOptions :=
  let _port := requested_port _userOptions in
  {| name := JS.nullish (u_name _userOptions) "default";
     random := JS.nullish (u_random _userOptions) (_port =? 0);
     ports := JS.nullish (u_ports _userOptions) [];
     portRange := JS.nullish (u_portRange _userOptions) NoRange;
     alternativePortRange :=
       JS.nullish (u_alternativePortRange _userOptions)
         (if JS.truthy_opt (u_port _userOptions) then NoRange else Range 3000 3100);
     verbose := JS.nullish (u_verbose _userOptions) false;
     port := _port;
     host := _validateHostname
               (match u_host _userOptions with Some h => Some h | None => env_HOST end)
               (u_public _userOptions) (u_verbose _userOptions) |}.

(** The callback of [filter], lines 55-64, over the candidates in order. *)
Fixpoint filter_ports (verbose : bool) (candidates : list PortNumber)
  : M (list PortNumber) :=
  match candidates with
  | [] => ret []
  | port :: rest =>
      keep <- (if negb (JS.truthy port) then ret false
               else if negb (isSafePort port)
                    then _log verbose ("Ignoring unsafe port: " ++ JS.string_of_Z port) ;;;
                         ret false
                    else ret true) ;;
      kept <- filter_ports verbose rest ;;
      ret (if keep then port :: kept else kept)
  end.

(** Lines 52-64: the list of ports to check. *)
Definition portsToCheck (options : GetPortOptions) : M (list PortNumber) :=
  generated <- _generateRange (portRange options) (random options) ;;
  filter_ports (verbose options)
    ((if random options then [] else port options :: ports options) ++ generated).

(** Lines 52-67: the primary stage. *)
Definition primaryStage (options : GetPortOptions) : M (option PortNumber) :=
  portsToCheck <- portsToCheck options ;;
  _findPort portsToCheck (host options).

(** Lines 70-81: the fallback port range. *)
Definition alternativeStage (options : GetPortOptions)
  (availablePort : option PortNumber) : M (option PortNumber) :=
  if negb (JS.truthy_opt availablePort)
     && (0 <? range_length (alternativePortRange options))
  then
    candidates <- _generateRange (alternativePortRange options) false ;;
    availablePort <- _findPort candidates (host options) ;;
    _log (verbose options)
      ("Unable to find an available port (tried "
         ++ range_join (alternativePortRange options) ++ " "
         ++ _fmtOnHost (host options) ++ "). Using alternative port "
         ++ JS.string_of_opt availablePort) ;;;
    ret availablePort
  else ret availablePort.

(** [_userOptions.random !== false]. *)
Definition random_not_disabled (_userOptions : UserOptions) : bool :=
  match u_random _userOptions with Some false => false | _ => true end.

(** Lines 84-89: the random port. *)
Definition randomStage (_userOptions : UserOptions) (options : GetPortOptions)
  (availablePort : option PortNumber) : M (option PortNumber) :=
  if negb (JS.truthy_opt availablePort) && random_not_disabled _userOptions
  then
    availablePort <- getRandomPort (host options) ;;
    (if JS.truthy availablePort
     then _log (verbose options) ("Using random port " ++ JS.string_of_Z availablePort)
     else ret tt) ;;;
    ret (Some availablePort)
  else ret availablePort.

(** Lines 93-99: [[port, portRange.join("-"), alternativePortRange.join("-")]
    .filter(Boolean).join(", ")]; each item comes with its truth value. *)
Definition triedRanges (options : GetPortOptions) : string :=
  JS.join ", "
    (map snd
       (filter fst
          [ (JS.truthy (port options), JS.string_of_Z (port options));
            (JS.truthy_string (range_join (portRange options)),
              range_join (portRange options));
            (JS.truthy_string (range_join (alternativePortRange options)),
              range_join (alternativePortRange options)) ])).

Definition exhausted (options : GetPortOptions) : GetPortError :=
  {| message := "Unable to find find available port " ++ _fmtOnHost (host options)
                  ++ " (tried " ++ triedRanges options ++ ")" |}.

(** Lines 92-107: throw when no port is available, else return it. *)
Definition finish (options : GetPortOptions) (availablePort : option PortNumber)
  : M PortNumber :=
  match availablePort with
  | Some p => if JS.truthy p then ret p else throw (exhausted options)
  | None => throw (exhausted options)
  end.

(** Lines 47-49: random requested and no port range. *)
Definition direct_random (options : GetPortOptions) : bool :=
  random options && (range_length (portRange options) =? 0).

(** Lines 52-81: the two candidate stages, before the random fallback. *)
Definition candidateStages (options : GetPortOptions) : M (option PortNumber) :=
  availablePort <- primaryStage options ;;
  alternativeStage options availablePort.

(** [getPort], lines 22-108. *)
Definition getPort (_userOptions : GetPortInput) : M PortNumber :=
  let _userOptions := shorthand _userOptions in
  let options := resolve _userOptions in
  if direct_random options then getRandomPort (host options)
  else
    availablePort <- candidateStages options ;;
    availablePort <- randomStage _userOptions options availablePort ;;
    finish options availablePort.

End Model.

(* ------------------------------------------------------------------ *)
(** * A concrete platform, for running the program on examples *)

Module Demo.

(** A sample of the published deny-list of [unsafe-ports.ts]. *)
Definition unsafePorts : list PortNumber :=
  [1; 7; 9; 11; 13; 15; 17; 19; 20; 21; 22; 23; 25; 37; 42; 43; 53; 69; 77;
   79; 87; 95; 101; 102; 103; 104; 109; 110; 111; 113; 115; 117; 119; 123;
   135; 137; 139; 143; 161; 179; 389; 427; 465; 512; 513; 514; 515; 526;
   530; 531; 532; 540; 548; 554; 556; 563; 587; 601; 636; 989; 990; 993;
   995; 1719; 1720; 1723; 2049; 3659; 4045; 5060; 5061; 6000; 6566; 6665;
   6666; 6667; 6668; 6669; 6697; 10080].

Definition mem (p : PortNumber) (l : list PortNumber) : bool := existsb (Z.eqb p) l.

(** The world is a schedule: the ports occupied now, then after one sleep,
    and so on; the last entry stays.  Port 0 is answered with the
    ephemeral port 49152 while that one is free. *)
Definition occupied (w : list (list PortNumber)) : list PortNumber := hd [] w.

Definition demo_listen (w : list (list PortNumber)) (p : PortNumber) (h : HostAddress)
  : option PortNumber * list (list PortNumber) :=
  let q := if p =? 0 then 49152 else p in
  if mem q (occupied w) || (q <? 1) || (65535 <? q) then (None, w) else (Some q, w).

Definition demo_elapse (w : list (list PortNumber)) (ms : Z) : list (list PortNumber) :=
  match w with
  | _ :: (_ :: _) as later => later
  | _ => w
  end.

#[export] Instance platform : Platform := {|
  World := list (list PortNumber);
  listen := demo_listen;
  elapse := demo_elapse;
  draw_shuffle := fun w l => (rev l, w);
  isSafePort := fun p => negb (mem p unsafePorts);
  _getLocalHosts := fun l => l ++ [Some "127.0.0.1"; Some "::1"];
  _validateHostname := fun h _ _ => h;
  _fmtOnHost := fun h =>
    match h with
    | Some (String c s) => ("on host " ++ String c s)%string
    | _ => "on any host"
    end;
  env_PORT := None;
  env_HOST := None
|}.

(** The initial state over a schedule. *)
Definition start (w : list (list PortNumber)) : State := {| world := w; trace := [] |}.

(** Every port is free. *)
Definition all_free : State := start [[]].

(** A request with only a port. *)
Definition port_only (p : PortNumber) : UserOptions :=
  {| u_name := None; u_random := None; u_port := Some p; u_ports := None;
     u_portRange := None; u_alternativePortRange := None; u_host := None;
     u_verbose := None; u_public := None |}.

(** The request [{port: 4321, random: false}]. *)
Definition pinned_4321 : UserOptions :=
  {| u_name := None; u_random := Some false; u_port := Some 4321; u_ports := None;
     u_portRange := None; u_alternativePortRange := None; u_host := None;
     u_verbose := None; u_public := None |}.

(** The request [{port: 4321, alternativePortRange: [6000, 6000]}]. *)
Definition with_unsafe_alternative : UserOptions :=
  {| u_name := None; u_random := None; u_port := Some 4321; u_ports := None;
     u_portRange := None; u_alternativePortRange := Some (Range 6000 6000);
     u_host := None; u_verbose := None; u_public := None |}.

(** The request [{port: 4321, alternativePortRange: [5000, 5002]}]. *)
Definition with_alternative : UserOptions :=
  {| u_name := None; u_random := None; u_port := Some 4321; u_ports := None;
     u_portRange := None; u_alternativePortRange := Some (Range 5000 5002);
     u_host := None; u_verbose := None; u_public := None |}.

(** The request [{port: 25, random: false}]; 25 is on the deny-list. *)
Definition unsafe_pinned : UserOptions :=
  {| u_name := None; u_random := Some false; u_port := Some 25; u_ports := None;
     u_portRange := None; u_alternativePortRange := None; u_host := None;
     u_verbose := None; u_public := None |}.

(** The request [{port: 0, random: false}]. *)
Definition zero_not_random : UserOptions :=
  {| u_name := None; u_random := Some false; u_port := Some 0; u_ports := None;
     u_portRange := None; u_alternativePortRange := None; u_host := None;
     u_verbose := None; u_public := None |}.

End Demo.

(* ------------------------------------------------------------------ *)
(** * Vocabulary of the statements *)

Section Vocabulary.
Context {P : Platform}.

(** The probes of a [checkPort] over a host list that succeeds with [q]:
    [p] on the first address, then [q] on every other one, each bound
    to [q]. *)
Definition validated (p q : PortNumber) (hs : list HostAddress) : list Event :=
  match hs with
  | [] => []
  | h :: rest => Probe p h (Some q) :: map (fun h' => Probe q h' (Some q)) rest
  end.

(** Some probe of the trace failed to bind. *)
Definition some_probe_failed (evs : list Event) : Prop :=
  exists t h, In (Probe t h None) evs.


(** [q] is a port the system assigned to a probe of port 0. *)
Definition assigned (evs : list Event) (q : PortNumber) : Prop :=
  exists h, In (Probe 0 h (Some q)) evs.

(** The expansion of a range in ascending order. *)
Definition expansion (r : PortRange) : list PortNumber :=
  match r with NoRange => [] | Range a b => ascending a b end.

(** The filter of lines 55-64 as a predicate on ports. *)
Definition kept (p : PortNumber) : bool := JS.truthy p && isSafePort p.

(** A range as an item of the error message, when it is not empty. *)
Definition range_item (r : PortRange) : list string :=
  match r with
  | NoRange => []
  | Range a b => [(JS.string_of_Z a ++ "-" ++ JS.string_of_Z b)%string]
  end.

(** The non-empty items among the requested port, the port range and
    the alternative port range. *)
Definition tried_items (opts : GetPortOptions) : list string :=
  (if port opts =? 0 then [] else [JS.string_of_Z (port opts)])
    ++ range_item (portRange opts) ++ range_item (alternativePortRange opts).

(** The random fallback ran after the state [st2]: a probe of port 0
    follows. *)
Definition random_fallback_attempted (st2 st' : State) : Prop :=
  exists h r evs, trace st' = trace st2 ++ Probe 0 h r :: evs.

End Vocabulary.

(* ------------------------------------------------------------------ *)
(** * Further vocabulary: hosts, silence, requests *)

(** The addresses of the probes of a trace, in order. *)
Fixpoint probe_hosts (evs : list Event) : list HostAddress :=
  match evs with
  | [] => []
  | Probe _ h _ :: rest => h :: probe_hosts rest
  | _ :: rest => probe_hosts rest
  end.

(** The event is a probe (not a sleep, not a log line). *)
Definition is_probe (e : Event) : Prop :=
  match e with Probe _ _ _ => True | _ => False end.

(** The request [{port: p}]. *)
Definition only_port (p : PortNumber) : UserOptions :=
  {| u_name := None; u_random := None; u_port := Some p; u_ports := None;
     u_portRange := None; u_alternativePortRange := None; u_host := None;
     u_verbose := None; u_public := None |}.

Section Hosts.
Context {P : Platform}.

(** The addresses [checkPort] goes through for a host argument, lines
    139-147: the list itself; the one address of a non-empty string;
    for [undefined] the address in [process.env.HOST] when that is a
    non-empty string; the local host set otherwise. *)
Definition resolved_hosts (host : HostArg) : list HostAddress :=
  match host with
  | Hosts hs => hs
  | Host1 (Some (String c s)) => [Some (String c s)]
  | Host1 (Some EmptyString) => _getLocalHosts [None; Some "0.0.0.0"]
  | Host1 None =>
      match env_HOST with
      | Some (String c s) => [Some (String c s)]
      | _ => _getLocalHosts [None; Some "0.0.0.0"]
      end
  end.

End Hosts.

(* ------------------------------------------------------------------ *)
(** * General facts about the monad and the built-ins *)

Lemma append_empty_r (s : string) : (s ++ "")%string = s.
Proof. induction s as [|c s IH]; simpl; [reflexivity | now rewrite IH]. Qed.

Section Proofs.
Context {P : Platform}.

Lemma events_since_refl (st : State) : events_since st st [].
Proof. unfold events_since. now rewrite app_nil_r. Qed.

Lemma events_since_trans (st1 st2 st3 : State) (e1 e2 : list Event) :
  events_since st1 st2 e1 -> events_since st2 st3 e2 ->
  events_since st1 st3 (e1 ++ e2).
Proof. unfold events_since. intros H1 H2. now rewrite H2, H1, app_assoc. Qed.

Lemma events_since_inj (st st' : State) (e1 e2 : list Event) :
  events_since st st' e1 -> events_since st st' e2 -> e1 = e2.
Proof. unfold events_since. intros H1 H2. rewrite H1 in H2. now apply app_inv_head in H2. Qed.

Lemma tryPort_run (p : PortNumber) (h : HostAddress) (st : State) :
  exists r w, listen (world st) p h = (r, w) /\
    _tryPort p h st = (Ok r, {| world := w; trace := trace st ++ [Probe p h r] |}).
Proof.
  unfold _tryPort. destruct (listen (world st) p h) as [r w].
  now exists r, w.
Qed.

Lemma log_run (v : bool) (msg : string) (st : State) :
  exists st', _log v msg st = (Ok tt, st') /\
    events_since st st' (if v then [Log msg] else []).
Proof.
  unfold _log. destruct v.
  - eexists. split; [reflexivity|]. reflexivity.
  - eexists. split; [reflexivity|]. apply events_since_refl.
Qed.

(** ** [checkPort] *)

Lemma validated_same (p : PortNumber) (hs : list HostAddress) :
  validated p p hs = map (fun h => Probe p h (Some p)) hs.
Proof. destruct hs; reflexivity. Qed.

Lemma no_failure_in_map (q : PortNumber) (hs : list HostAddress) :
  ~ some_probe_failed (map (fun h => Probe q h (Some q)) hs).
Proof.
  intros (t & h & Hin). apply in_map_iff in Hin.
  destruct Hin as (h' & Heq & _). discriminate.
Qed.

Lemma no_failure_in_validated (p q : PortNumber) (hs : list HostAddress) :
  ~ some_probe_failed (validated p q hs).
Proof.
  destruct hs as [|h rest]; intros (t & h' & Hin); simpl in Hin.
  - exact Hin.
  - destruct Hin as [Heq | Hin]; [discriminate|].
    apply (no_failure_in_map q rest). now exists t, h'.
Qed.

Lemma bind_ok {A B : Type} (c : M A) (k : A -> M B) (st st' : State) (a : A) :
  c st = (Ok a, st') -> bind c k st = k a st'.
Proof. unfold bind. now intros ->. Qed.

Lemma bind_throw {A B : Type} (c : M A) (k : A -> M B) (st st' : State)
  (e : GetPortError) :
  c st = (Throw e, st') -> bind c k st = (Throw e, st').
Proof. unfold bind. now intros ->. Qed.

(** The verbose note of line 151 only adds log lines. *)
Lemma privileged_note_run (p : PortNumber) (v : option bool) (h : HostAddress)
  (st : State) :
  exists st' evs,
    (if (p <? 1024) && JS.truthy_flag v
     then _log (JS.truthy_flag v)
            ("Unable to listen to the priviliged port "
               ++ JS.string_of_Z p ++ " " ++ _fmtOnHost h)
     else ret tt) st = (Ok tt, st')
    /\ events_since st st' evs /\ probed evs = [].
Proof.
  destruct ((p <? 1024) && JS.truthy_flag v).
  - destruct (log_run (JS.truthy_flag v)
                ("Unable to listen to the priviliged port "
                   ++ JS.string_of_Z p ++ " " ++ _fmtOnHost h) st)
      as (st' & Hrun & Hev).
    exists st'. eexists. split; [exact Hrun|]. split; [exact Hev|].
    now destruct (JS.truthy_flag v).
  - exists st, []. split; [reflexivity|]. split; [apply events_since_refl | reflexivity].
Qed.

(** One step of the loop of [checkPort]. *)
Lemma checkPort_loop_step (p : PortNumber) (h : HostAddress)
  (rest : list HostAddress) (v : option bool) (st : State) :
  exists r w, listen (world st) p h = (r, w) /\
    let st1 := {| world := w; trace := trace st ++ [Probe p h r] |} in
    match r with
    | Some q =>
        checkPort_loop p (h :: rest) v st
        = checkPort_loop (if (p =? 0) && negb (q =? 0) then q else p) rest v st1
    | None =>
        exists st' evs, checkPort_loop p (h :: rest) v st = (Ok None, st')
          /\ events_since st1 st' evs /\ probed evs = []
    end.
Proof.
  destruct (tryPort_run p h st) as (r & w & Hl & Hrun).
  exists r, w. split; [exact Hl|]. cbn zeta.
  destruct r as [q|].
  - cbn [checkPort_loop]. now rewrite (bind_ok _ _ _ _ _ Hrun).
  - destruct (privileged_note_run p v h
                {| world := w; trace := trace st ++ [Probe p h None] |})
      as (st' & evs & Hnote & Hev & Hnone).
    exists st', evs. split; [|split; assumption].
    cbn [checkPort_loop]. rewrite (bind_ok _ _ _ _ _ Hrun).
    now rewrite (bind_ok _ _ _ _ _ Hnote).
Qed.

Lemma events_after_probe (st st' : State) (w : World) (e : Event)
  (evs : list Event) :
  events_since {| world := w; trace := trace st ++ [e] |} st' evs ->
  events_since st st' (e :: evs).
Proof.
  unfold events_since. simpl. intros ->. now rewrite <- app_assoc.
Qed.

(** The loop with a port that is not 0: every address is probed with
    that port, until one fails. *)
Lemma checkPort_loop_fixed (HP : PlatformOk P) (hs : list HostAddress) :
  forall (p : PortNumber) (v : option bool) (st : State), p <> 0 ->
    exists res st' evs, checkPort_loop p hs v st = (res, st') /\
      events_since st st' evs /\
      ((res = Ok None /\ some_probe_failed evs)
       \/ (res = Ok (Some p) /\ evs = map (fun h => Probe p h (Some p)) hs
           /\ (hs <> [] -> 1 <= p <= 65535))).
Proof.
  induction hs as [|h rest IH]; intros p v st Hp.
  - exists (Ok (Some p)), st, []. split; [reflexivity|].
    split; [apply events_since_refl|]. right.
    split; [reflexivity|]. split; [reflexivity|]. intros H. now elim H.
  - destruct (checkPort_loop_step p h rest v st) as (r & w & Hl & Hstep).
    cbn zeta in Hstep. destruct r as [q|].
    + destruct (listen_bound P HP _ _ _ _ _ Hl) as [Hq Hsame].
      specialize (Hsame Hp). subst q.
      replace ((p =? 0) && negb (p =? 0)) with false in Hstep
        by (destruct (Z.eqb_spec p 0); [contradiction | reflexivity]).
      destruct (IH p v {| world := w; trace := trace st ++ [Probe p h (Some p)] |} Hp)
        as (res & st' & evs & Hrun & Hev & Hcase).
      exists res, st', (Probe p h (Some p) :: evs).
      split; [now rewrite Hstep|].
      split; [now apply events_after_probe with (w := w)|].
      destruct Hcase as [[-> (t & h' & Hin)] | (-> & -> & _)].
      * left. split; [reflexivity|]. exists t, h'. now right.
      * right. split; [reflexivity|]. split; [reflexivity|]. intros _. exact Hq.
    + destruct Hstep as (st' & evs & Hrun & Hev & _).
      exists (Ok None), st', (Probe p h None :: evs). split; [exact Hrun|].
      split; [now apply events_after_probe with (w := w)|].
      left. split; [reflexivity|]. exists p, h. now left.
Qed.

(** The loop in general: all or nothing, and one port for every
    address. *)
Lemma checkPort_loop_spec (HP : PlatformOk P) (p : PortNumber)
  (hs : list HostAddress) (v : option bool) (st : State) :
  exists res st' evs, checkPort_loop p hs v st = (res, st') /\
    events_since st st' evs /\
    ((res = Ok None /\ some_probe_failed evs)
     \/ (exists q, res = Ok (Some q)
            /\ evs = validated p q hs
            /\ (hs = [] -> q = p)
            /\ (hs <> [] -> 1 <= q <= 65535 /\ (p <> 0 -> q = p)))).
Proof.
  destruct hs as [|h rest].
  - exists (Ok (Some p)), st, []. split; [reflexivity|].
    split; [apply events_since_refl|]. right. exists p.
    split; [reflexivity|]. split; [reflexivity|].
    split; [reflexivity|]. intros H. now elim H.
  - destruct (checkPort_loop_step p h rest v st) as (r & w & Hl & Hstep).
    cbn zeta in Hstep. destruct r as [q|].
    + destruct (listen_bound P HP _ _ _ _ _ Hl) as [Hq Hsame].
      assert (Hq0 : q <> 0) by lia.
      assert (Hnext : (if (p =? 0) && negb (q =? 0) then q else p) = q).
      { destruct (Z.eqb_spec p 0) as [_|Hp]; simpl.
        - destruct (Z.eqb_spec q 0); [contradiction | reflexivity].
        - symmetry. now apply Hsame. }
      rewrite Hnext in Hstep.
      destruct (checkPort_loop_fixed HP rest q v
                  {| world := w; trace := trace st ++ [Probe p h (Some q)] |} Hq0)
        as (res & st' & evs & Hrun & Hev & Hcase).
      exists res, st', (Probe p h (Some q) :: evs).
      split; [now rewrite Hstep|].
      split; [now apply events_after_probe with (w := w)|].
      destruct Hcase as [[-> (t & h' & Hin)] | (-> & -> & _)].
      * left. split; [reflexivity|]. exists t, h'. now right.
      * right. exists q. split; [reflexivity|]. split; [reflexivity|].
        split; [discriminate|]. intros _. split; [exact Hq | exact Hsame].
    + destruct Hstep as (st' & evs & Hrun & Hev & _).
      exists (Ok None), st', (Probe p h None :: evs). split; [exact Hrun|].
      split; [now apply events_after_probe with (w := w)|].
      left. split; [reflexivity|]. exists p, h. now left.
Qed.


(** C10.  With an empty host list [checkPort] returns the port it was
    given, 0 included, and probes nothing: the state is untouched. *)
Theorem checkPort_empty_hosts (p : PortNumber) (v : option bool) (st : State) :
  checkPort p (Hosts []) v st = (Ok (Some p), st).
Proof. reflexivity. Qed.

(** ** Which ports get probed *)

Lemma probed_app (e1 e2 : list Event) : probed (e1 ++ e2) = probed e1 ++ probed e2.
Proof.
  induction e1 as [|e e1 IH]; [reflexivity|].
  destruct e; simpl; now rewrite IH.
Qed.

Lemma assigned_app_l (e1 e2 : list Event) (q : PortNumber) :
  assigned e1 q -> assigned (e1 ++ e2) q.
Proof. intros (h & Hin). exists h. apply in_or_app. now left. Qed.

Lemma assigned_app_r (e1 e2 : list Event) (q : PortNumber) :
  assigned e2 q -> assigned (e1 ++ e2) q.
Proof. intros (h & Hin). exists h. apply in_or_app. now right. Qed.

(** Whatever the sockets answer, the loop of [checkPort] probes the port
    it was given, or, given 0, ports the system assigned to it. *)
Lemma checkPort_loop_probed (hs : list HostAddress) :
  forall (p : PortNumber) (v : option bool) (st : State),
    exists res st' evs, checkPort_loop p hs v st = (Ok res, st') /\
      events_since st st' evs /\
      (forall t, In t (probed evs) -> t = p \/ (p = 0 /\ assigned evs t)).
Proof.
  induction hs as [|h rest IH]; intros p v st.
  - exists (Some p), st, []. split; [reflexivity|].
    split; [apply events_since_refl|]. intros t [].
  - destruct (checkPort_loop_step p h rest v st) as (r & w & Hl & Hstep).
    cbn zeta in Hstep. destruct r as [q|].
    + destruct (IH (if (p =? 0) && negb (q =? 0) then q else p) v
                  {| world := w; trace := trace st ++ [Probe p h (Some q)] |})
        as (res & st' & evs & Hrun & Hev & Hin).
      exists res, st', (Probe p h (Some q) :: evs).
      split; [now rewrite Hstep|].
      split; [now apply events_after_probe with (w := w)|].
      intros t [<- | Ht]; [now left|].
      destruct (Hin t Ht) as [Heq | [Heq Hass]].
      * destruct (Z.eqb_spec p 0) as [Hp|Hp]; simpl in Heq.
        -- destruct (Z.eqb_spec q 0) as [Hq|Hq]; simpl in Heq.
           ++ left. congruence.
           ++ right. split; [exact Hp|]. exists h. left. now subst.
        -- now left.
      * destruct (Z.eqb_spec p 0) as [Hp|Hp]; simpl in Heq.
        -- right. split; [exact Hp|].
           apply (assigned_app_r [Probe p h (Some q)] evs). exact Hass.
        -- contradiction.
    + destruct Hstep as (st' & evs & Hrun & Hev & Hnone).
      exists None, st', (Probe p h None :: evs). split; [exact Hrun|].
      split; [now apply events_after_probe with (w := w)|].
      simpl. rewrite Hnone. intros t [<- | []]. now left.
Qed.

(** How [checkPort] resolves a single host argument, lines 139-147. *)
Lemma checkPort_single (p : PortNumber) (h : HostAddress) (v : option bool) :
  (exists h', checkPort p (Host1 h) v = _tryPort p h')
  \/ checkPort p (Host1 h) v
     = checkPort_loop p (_getLocalHosts [None; Some "0.0.0.0"]) v.
Proof.
  unfold checkPort. destruct h as [[|c s]|].
  - now right.
  - left. now exists (Some (String c s)).
  - destruct env_HOST as [[|c s]|].
    + now right.
    + left. now exists (Some (String c s)).
    + now right.
Qed.

Lemma checkPort_probed (p : PortNumber) (h : HostAddress) (v : option bool)
  (st : State) :
  exists res st' evs, checkPort p (Host1 h) v st = (Ok res, st') /\
    events_since st st' evs /\
    (forall t, In t (probed evs) -> t = p \/ (p = 0 /\ assigned evs t)).
Proof.
  destruct (checkPort_single p h v) as [(h' & ->) | ->].
  - destruct (tryPort_run p h' st) as (r & w & _ & ->).
    exists r. eexists. exists [Probe p h' r]. split; [reflexivity|].
    split; [reflexivity|]. intros t [<- | []]. now left.
  - apply checkPort_loop_probed.
Qed.

Lemma checkPort_loop_first (p : PortNumber) (h : HostAddress)
  (rest : list HostAddress) (v : option bool) (st : State) :
  exists res st' r evs, checkPort_loop p (h :: rest) v st = (Ok res, st') /\
    events_since st st' (Probe p h r :: evs).
Proof.
  destruct (checkPort_loop_step p h rest v st) as (r & w & _ & Hstep).
  cbn zeta in Hstep. destruct r as [q|].
  - destruct (checkPort_loop_probed rest
                (if (p =? 0) && negb (q =? 0) then q else p) v
                {| world := w; trace := trace st ++ [Probe p h (Some q)] |})
      as (res & st' & evs & Hrun & Hev & _).
    exists res, st', (Some q), evs. split; [now rewrite Hstep|].
    now apply events_after_probe with (w := w).
  - destruct Hstep as (st' & evs & Hrun & Hev & _).
    exists None, st', None, evs. split; [exact Hrun|].
    now apply events_after_probe with (w := w).
Qed.

Lemma localHosts_nonempty (HP : PlatformOk P) :
  _getLocalHosts [None; Some "0.0.0.0"] <> [].
Proof.
  intros Heq.
  pose proof (localHosts_given P HP [None; Some "0.0.0.0"] None (or_introl eq_refl))
    as Hin.
  rewrite Heq in Hin. exact Hin.
Qed.

(** Under the socket contract a successful check yields a real port,
    the requested one unless 0 was requested, and the check starts with
    a probe of the requested port. *)
Lemma checkPort_sound (HP : PlatformOk P) (p : PortNumber) (h : HostAddress)
  (v : option bool) (st : State) :
  exists res st' h' r evs, checkPort p (Host1 h) v st = (Ok res, st') /\
    events_since st st' (Probe p h' r :: evs) /\
    (forall q, res = Some q -> 1 <= q <= 65535 /\ (p <> 0 -> q = p)).
Proof.
  destruct (checkPort_single p h v) as [(h' & ->) | ->].
  - destruct (tryPort_run p h' st) as (r & w & Hl & ->).
    exists r. eexists. exists h', r, []. split; [reflexivity|].
    split; [reflexivity|]. intros q ->. exact (listen_bound P HP _ _ _ _ _ Hl).
  - pose proof (localHosts_nonempty HP) as Hne.
    destruct (_getLocalHosts [None; Some "0.0.0.0"]) as [|h1 rest]; [now elim Hne|].
    destruct (checkPort_loop_first p h1 rest v st)
      as (res & st' & r & evs & Hrun & Hev).
    exists res, st', h1, r, evs. split; [exact Hrun|]. split; [exact Hev|].
    intros q ->.
    destruct (checkPort_loop_spec HP p (h1 :: rest) v st)
      as (res2 & st2 & evs2 & Hrun2 & _ & Hcase).
    rewrite Hrun in Hrun2. injection Hrun2 as <- <-.
    destruct Hcase as [(Hres & _) | (q' & Hres & _ & _ & Hq)]; [discriminate|].
    injection Hres as ->. apply Hq. discriminate.
Qed.

(** ** The port finder and the candidate lists *)

Lemma bind_inv_ok {A B : Type} (c : M A) (k : A -> M B) (st st' : State) (b : B) :
  bind c k st = (Ok b, st') ->
  exists a st1, c st = (Ok a, st1) /\ k a st1 = (Ok b, st').
Proof.
  unfold bind. destruct (c st) as [[a|e] st1]; intros H.
  - now exists a, st1.
  - discriminate.
Qed.

Lemma findPort_probed (host : HostAddress) (l : list PortNumber) :
  forall st : State,
    exists res st' evs, _findPort l host st = (Ok res, st') /\
      events_since st st' evs /\
      (forall t, In t (probed evs) -> In t l \/ (In 0 l /\ assigned evs t)) /\
      (forall q, res = Some q -> In q l).
Proof.
  induction l as [|p rest IH]; intros st.
  - exists None, st, []. split; [reflexivity|].
    split; [apply events_since_refl|]. split; [intros t [] | discriminate].
  - destruct (checkPort_probed p host None st)
      as (r & st1 & evs1 & Hrun & Hev1 & Hin1).
    cbn [_findPort]. rewrite (bind_ok _ _ _ _ _ Hrun).
    destruct r as [q|].
    + exists (Some p), st1, evs1. split; [reflexivity|]. split; [exact Hev1|].
      split.
      * intros t Ht. destruct (Hin1 t Ht) as [-> | [-> Hass]].
        -- left. now left.
        -- right. split; [now left | exact Hass].
      * intros q' [= <-]. now left.
    + destruct (IH st1) as (res & st' & evs2 & Hrest & Hev2 & Hin2 & Hres).
      exists res, st', (evs1 ++ evs2). split; [exact Hrest|].
      split; [now apply events_since_trans with (st2 := st1)|].
      split.
      * intros t Ht. rewrite probed_app in Ht. apply in_app_or in Ht.
        destruct Ht as [Ht | Ht].
        -- destruct (Hin1 t Ht) as [-> | [-> Hass]].
           ++ left. now left.
           ++ right. split; [now left | now apply assigned_app_l].
        -- destruct (Hin2 t Ht) as [Hl | [Hz Hass]].
           ++ left. now right.
           ++ right. split; [now right | now apply assigned_app_r].
      * intros q Hq. right. now apply Hres.
Qed.

Lemma findPort_sound (HP : PlatformOk P) (host : HostAddress)
  (l : list PortNumber) :
  forall (st st' : State) (q : PortNumber),
    _findPort l host st = (Ok (Some q), st') -> q <> 0 -> 1 <= q <= 65535.
Proof.
  induction l as [|p rest IH]; intros st st' q Hrun Hq.
  - discriminate.
  - destruct (checkPort_sound HP p host None st)
      as (r & st1 & h' & r' & evs & Hcheck & _ & Hbound).
    cbn [_findPort] in Hrun. rewrite (bind_ok _ _ _ _ _ Hcheck) in Hrun.
    destruct r as [b|].
    + injection Hrun as -> _.
      destruct (Hbound b eq_refl) as [Hb Hsame].
      now rewrite <- (Hsame Hq).
    + now apply (IH st1 st' q).
Qed.

Lemma generateRange_run (r : PortRange) (rnd : bool) (st : State) :
  exists l st', _generateRange r rnd st = (Ok l, st') /\
    events_since st st' [] /\
    (rnd = false -> l = expansion r /\ st' = st).
Proof.
  destruct r as [|a b]; simpl.
  - exists [], st. split; [reflexivity|]. split; [apply events_since_refl|]. now split.
  - destruct rnd.
    + destruct (draw_shuffle (world st) (ascending a b)) as [l w].
      exists l. eexists. split; [reflexivity|].
      split; [unfold events_since; simpl; now rewrite app_nil_r | discriminate].
    + exists (ascending a b), st. split; [reflexivity|].
      split; [apply events_since_refl|]. now split.
Qed.

Lemma filter_ports_run (v : bool) (l : list PortNumber) :
  forall st : State,
    exists st' evs, filter_ports v l st = (Ok (filter kept l), st') /\
      events_since st st' evs /\ probed evs = [].
Proof.
  induction l as [|p rest IH]; intros st.
  - exists st, []. split; [reflexivity|]. split; [apply events_since_refl | reflexivity].
  - cbn [filter_ports filter]. unfold kept at 1.
    destruct (JS.truthy p); cbn [negb andb].
    + destruct (isSafePort p); cbn [negb].
      * destruct (IH st) as (st' & evs & Hrun & Hev & Hnone).
        exists st', evs. split; [|split; assumption].
        rewrite (bind_ok _ _ st st true eq_refl).
        now rewrite (bind_ok _ _ _ _ _ Hrun).
      * destruct (log_run v ("Ignoring unsafe port: " ++ JS.string_of_Z p) st)
          as (st1 & Hlog & Hev1).
        destruct (IH st1) as (st' & evs & Hrun & Hev & Hnone).
        exists st'. eexists. split; [|split].
        -- erewrite bind_ok; [|erewrite bind_ok; [reflexivity | exact Hlog]].
           now rewrite (bind_ok _ _ _ _ _ Hrun).
        -- exact (events_since_trans _ _ _ _ _ Hev1 Hev).
        -- rewrite probed_app, Hnone. now destruct v.
    + destruct (IH st) as (st' & evs & Hrun & Hev & Hnone).
      exists st', evs. split; [|split; assumption].
      rewrite (bind_ok _ _ st st false eq_refl).
      now rewrite (bind_ok _ _ _ _ _ Hrun).
Qed.

Lemma kept_nonzero (p : PortNumber) : kept p = true -> p <> 0 /\ isSafePort p = true.
Proof.
  unfold kept, JS.truthy. intros H. apply andb_true_iff in H. destruct H as [Hp Hs].
  split; [|exact Hs]. intros ->. discriminate.
Qed.

(** The list of ports to check is the explicit port and list (unless
    random) followed by the generated range, without the ports the
    filter drops. *)
Lemma portsToCheck_run (opts : GetPortOptions) (st : State) :
  exists generated st0 st' evs,
    _generateRange (portRange opts) (random opts) st = (Ok generated, st0) /\
    portsToCheck opts st
    = (Ok (filter kept
             ((if random opts then [] else port opts :: ports opts) ++ generated)),
       st') /\
    events_since st st' evs /\ probed evs = [].
Proof.
  destruct (generateRange_run (portRange opts) (random opts) st)
    as (generated & st0 & Hgen & Hev0 & _).
  destruct (filter_ports_run (verbose opts)
              ((if random opts then [] else port opts :: ports opts) ++ generated) st0)
    as (st' & evs & Hrun & Hev & Hnone).
  exists generated, st0, st', evs. split; [exact Hgen|]. split; [|split].
  - unfold portsToCheck. now rewrite (bind_ok _ _ _ _ _ Hgen).
  - exact (events_since_trans _ _ _ _ _ Hev0 Hev).
  - exact Hnone.
Qed.

(** ** The stages of [getPort] *)

Lemma primaryStage_run (opts : GetPortOptions) (st : State) :
  exists generated st0 a st1 evs,
    _generateRange (portRange opts) (random opts) st = (Ok generated, st0) /\
    primaryStage opts st = (Ok a, st1) /\
    events_since st st1 evs /\
    let candidates :=
      filter kept ((if random opts then [] else port opts :: ports opts) ++ generated) in
    (forall t, In t (probed evs) -> In t candidates) /\
    (forall q, a = Some q -> In q candidates).
Proof.
  destruct (portsToCheck_run opts st)
    as (generated & st0 & st' & evs0 & Hgen & Hports & Hev0 & Hnone).
  set (candidates :=
         filter kept ((if random opts then [] else port opts :: ports opts) ++ generated))
    in *.
  destruct (findPort_probed (host opts) candidates st')
    as (a & st1 & evs1 & Hfind & Hev1 & Hin & Hres).
  exists generated, st0, a, st1, (evs0 ++ evs1).
  split; [exact Hgen|]. split; [|split; [|split]].
  - unfold primaryStage. now rewrite (bind_ok _ _ _ _ _ Hports).
  - exact (events_since_trans _ _ _ _ _ Hev0 Hev1).
  - intros t Ht. rewrite probed_app, Hnone in Ht. simpl in Ht.
    destruct (Hin t Ht) as [Hc | [Hz _]]; [exact Hc|].
    apply filter_In in Hz. destruct Hz as [_ Hz]. discriminate.
  - exact Hres.
Qed.

Lemma alternativeStage_run (opts : GetPortOptions) (a : option PortNumber)
  (st : State) :
  exists a' st2 evs,
    alternativeStage opts a st = (Ok a', st2) /\
    events_since st st2 evs /\
    (forall t, In t (probed evs) ->
       In t (expansion (alternativePortRange opts)) \/ assigned evs t) /\
    (forall q, a' = Some q ->
       a = Some q \/ In q (expansion (alternativePortRange opts))).
Proof.
  unfold alternativeStage.
  destruct (negb (JS.truthy_opt a) && (0 <? range_length (alternativePortRange opts))).
  - destruct (generateRange_run (alternativePortRange opts) false st)
      as (l & st0 & Hgen & _ & Hasc).
    destruct (Hasc eq_refl) as [-> ->].
    destruct (findPort_probed (host opts) (expansion (alternativePortRange opts)) st)
      as (a' & st1 & evs1 & Hfind & Hev1 & Hin & Hres).
    destruct (log_run (verbose opts)
                ("Unable to find an available port (tried "
                   ++ range_join (alternativePortRange opts) ++ " "
                   ++ _fmtOnHost (host opts) ++ "). Using alternative port "
                   ++ JS.string_of_opt a') st1)
      as (st2 & Hlog & Hev2).
    exists a', st2. eexists. split; [|split; [|split]].
    + rewrite (bind_ok _ _ _ _ _ Hgen), (bind_ok _ _ _ _ _ Hfind).
      now rewrite (bind_ok _ _ _ _ _ Hlog).
    + exact (events_since_trans _ _ _ _ _ Hev1 Hev2).
    + intros t Ht. rewrite probed_app in Ht.
      replace (probed (if verbose opts then [Log _] else [])) with (@nil PortNumber)
        in Ht by (now destruct (verbose opts)).
      rewrite app_nil_r in Ht.
      destruct (Hin t Ht) as [Hl | [_ Hass]]; [now left|].
      right. now apply assigned_app_l.
    + intros q Hq. right. now apply Hres.
  - exists a, st, []. split; [reflexivity|]. split; [apply events_since_refl|].
    split; [intros t [] | intros q Hq; now left].
Qed.

Lemma candidateStages_run (opts : GetPortOptions) (st : State) :
  exists a st2 evs,
    candidateStages opts st = (Ok a, st2) /\
    events_since st st2 evs /\
    (forall t, In t (probed evs) ->
       kept t = true \/ In t (expansion (alternativePortRange opts))
       \/ assigned evs t).
Proof.
  destruct (primaryStage_run opts st)
    as (generated & st0 & a1 & st1 & evs1 & _ & Hprim & Hev1 & Hin1 & _).
  destruct (alternativeStage_run opts a1 st1)
    as (a & st2 & evs2 & Halt & Hev2 & Hin2 & _).
  exists a, st2, (evs1 ++ evs2). split; [|split].
  - unfold candidateStages. now rewrite (bind_ok _ _ _ _ _ Hprim).
  - exact (events_since_trans _ _ _ _ _ Hev1 Hev2).
  - intros t Ht. rewrite probed_app in Ht. apply in_app_or in Ht.
    destruct Ht as [Ht | Ht].
    + left. apply Hin1 in Ht. apply filter_In in Ht. tauto.
    + destruct (Hin2 t Ht) as [Hl | Hass]; [tauto|].
      right. right. now apply assigned_app_r.
Qed.

Lemma candidateStages_sound (HP : PlatformOk P) (opts : GetPortOptions)
  (st st2 : State) (q : PortNumber) :
  candidateStages opts st = (Ok (Some q), st2) -> q <> 0 -> 1 <= q <= 65535.
Proof.
  intros Hrun Hq. unfold candidateStages in Hrun.
  apply bind_inv_ok in Hrun. destruct Hrun as (a1 & st1 & Hprim & Halt).
  assert (Hfirst : a1 = Some q -> 1 <= q <= 65535).
  { intros ->. unfold primaryStage in Hprim.
    apply bind_inv_ok in Hprim. destruct Hprim as (l & st0 & _ & Hfind).
    exact (findPort_sound HP _ _ _ _ _ Hfind Hq). }
  unfold alternativeStage in Halt.
  destruct (negb (JS.truthy_opt a1) && (0 <? range_length (alternativePortRange opts))).
  - apply bind_inv_ok in Halt. destruct Halt as (l & st0 & _ & Halt).
    apply bind_inv_ok in Halt. destruct Halt as (a2 & st3 & Hfind & Halt).
    apply bind_inv_ok in Halt. destruct Halt as ([] & st4 & _ & Hret).
    injection Hret as -> _.
    exact (findPort_sound HP _ _ _ _ _ Hfind Hq).
  - injection Halt as -> _. now apply Hfirst.
Qed.

Lemma getRandomPort_run (host : HostAddress) (st : State) :
  exists res st' evs, getRandomPort host st = (res, st') /\
    events_since st st' evs /\
    (forall t, In t (probed evs) -> t = 0 \/ assigned evs t) /\
    (res = Throw (random_error host) \/ exists q, res = Ok q).
Proof.
  destruct (checkPort_probed 0 host None st) as (r & st' & evs & Hrun & Hev & Hin).
  unfold getRandomPort. rewrite (bind_ok _ _ _ _ _ Hrun).
  destruct r as [q|].
  - exists (Ok q), st', evs. split; [reflexivity|]. split; [exact Hev|].
    split; [|right; now exists q].
    intros t Ht. destruct (Hin t Ht) as [-> | [_ Hass]]; tauto.
  - exists (Throw (random_error host)), st', evs. split; [reflexivity|].
    split; [exact Hev|]. split; [|now left].
    intros t Ht. destruct (Hin t Ht) as [-> | [_ Hass]]; tauto.
Qed.

Lemma getRandomPort_sound (HP : PlatformOk P) (host : HostAddress) (st : State) :
  exists res st' h r evs, getRandomPort host st = (res, st') /\
    events_since st st' (Probe 0 h r :: evs) /\
    (res = Throw (random_error host) \/ exists q, res = Ok q /\ 1 <= q <= 65535).
Proof.
  destruct (checkPort_sound HP 0 host None st)
    as (res & st' & h & r & evs & Hrun & Hev & Hbound).
  unfold getRandomPort. rewrite (bind_ok _ _ _ _ _ Hrun).
  destruct res as [q|].
  - exists (Ok q), st', h, r, evs. split; [reflexivity|]. split; [exact Hev|].
    right. exists q. split; [reflexivity|]. now apply Hbound.
  - exists (Throw (random_error host)), st', h, r, evs. split; [reflexivity|].
    split; [exact Hev|]. now left.
Qed.

(** After the candidate stages: the random fallback when it is skipped. *)
Lemma fallback_skipped (o : UserOptions) (opts : GetPortOptions)
  (a : option PortNumber) (st2 : State) :
  negb (JS.truthy_opt a) && random_not_disabled o = false ->
  bind (randomStage o opts a) (finish opts) st2 = finish opts a st2.
Proof. intros Hc. unfold randomStage. now rewrite Hc. Qed.

(** ... and when it runs. *)
Lemma fallback_taken (o : UserOptions) (opts : GetPortOptions)
  (a : option PortNumber) (st2 : State) :
  negb (JS.truthy_opt a) && random_not_disabled o = true ->
  match getRandomPort (host opts) st2 with
  | (Throw e, st3) =>
      bind (randomStage o opts a) (finish opts) st2 = (Throw e, st3)
  | (Ok q, st3) =>
      if JS.truthy q
      then exists st',
          bind (randomStage o opts a) (finish opts) st2 = (Ok q, st')
          /\ events_since st3 st'
               (if verbose opts then [Log ("Using random port " ++ JS.string_of_Z q)]
                else [])
      else bind (randomStage o opts a) (finish opts) st2
           = (Throw (exhausted opts), st3)
  end.
Proof.
  intros Hc. unfold randomStage. rewrite Hc.
  destruct (getRandomPort (host opts) st2) as [[q|e] st3] eqn:Hrand.
  - destruct (JS.truthy q) eqn:Hq.
    + destruct (log_run (verbose opts) ("Using random port " ++ JS.string_of_Z q) st3)
        as (st' & Hlog & Hev).
      exists st'. split; [|exact Hev].
      erewrite bind_ok.
      2:{ rewrite (bind_ok _ _ _ _ _ Hrand). rewrite Hq.
          rewrite (bind_ok _ _ _ _ _ Hlog). reflexivity. }
      simpl. now rewrite Hq.
    + erewrite bind_ok.
      2:{ rewrite (bind_ok _ _ _ _ _ Hrand). rewrite Hq. reflexivity. }
      simpl. now rewrite Hq.
  - apply bind_throw. now apply bind_throw.
Qed.

Lemma getPort_cascade (input : GetPortInput) (st st2 : State)
  (a : option PortNumber) :
  let o := shorthand input in
  let opts := resolve o in
  direct_random opts = false ->
  candidateStages opts st = (Ok a, st2) ->
  getPort input st = bind (randomStage o opts a) (finish opts) st2.
Proof.
  intros o opts Hd Hc. unfold getPort. fold o opts. rewrite Hd.
  now rewrite (bind_ok _ _ _ _ _ Hc).
Qed.

Lemma finish_run (opts : GetPortOptions) (a : option PortNumber) (st : State) :
  finish opts a st
  = (if JS.truthy_opt a then Ok (JS.nullish a 0) else Throw (exhausted opts), st).
Proof.
  unfold finish. destruct a as [q|]; simpl; [|reflexivity].
  now destruct (JS.truthy q).
Qed.

Lemma fallback_run (o : UserOptions) (opts : GetPortOptions)
  (a : option PortNumber) (st2 : State) :
  exists res st' evs,
    bind (randomStage o opts a) (finish opts) st2 = (res, st') /\
    events_since st2 st' evs /\
    (forall t, In t (probed evs) -> t = 0 \/ assigned evs t).
Proof.
  destruct (negb (JS.truthy_opt a) && random_not_disabled o) eqn:Hc.
  - pose proof (fallback_taken o opts a st2 Hc) as Htaken.
    destruct (getRandomPort_run (host opts) st2)
      as (res & st3 & evs & Hrand & Hev & Hin & _).
    rewrite Hrand in Htaken. destruct res as [q|e].
    + destruct (JS.truthy q).
      * destruct Htaken as (st' & Hrun & Hlog).
        exists (Ok q), st'. eexists. split; [exact Hrun|].
        split; [exact (events_since_trans _ _ _ _ _ Hev Hlog)|].
        intros t Ht. rewrite probed_app in Ht.
        replace (probed (if verbose opts then [Log _] else [])) with (@nil PortNumber)
          in Ht by (now destruct (verbose opts)).
        rewrite app_nil_r in Ht.
        destruct (Hin t Ht) as [-> | Hass]; [now left|].
        right. now apply assigned_app_l.
      * exists (Throw (exhausted opts)), st3, evs. now repeat split.
    + exists (Throw e), st3, evs. now repeat split.
  - rewrite (fallback_skipped o opts a st2 Hc), finish_run.
    eexists. exists st2, []. split; [reflexivity|].
    split; [apply events_since_refl | intros t []].
Qed.

Lemma random_not_disabled_iff (o : UserOptions) :
  random_not_disabled o = true <-> u_random o <> Some false.
Proof.
  unfold random_not_disabled. destruct (u_random o) as [[|]|]; split; congruence.
Qed.

Lemma range_join_item (r : PortRange) :
  map snd (filter fst [(JS.truthy_string (range_join r), range_join r)])
  = range_item r.
Proof.
  destruct r as [|a b]; [reflexivity|].
  unfold range_join, range_item, JS.join. cbn [String.concat].
  now destruct (JS.string_of_Z a).
Qed.

Lemma triedRanges_items (opts : GetPortOptions) :
  triedRanges opts = JS.join ", " (tried_items opts).
Proof.
  unfold triedRanges, tried_items. f_equal.
  change (?x :: ?y :: ?z :: nil) with ([x] ++ [y] ++ [z]).
  rewrite !filter_app, !map_app, !range_join_item. f_equal.
  unfold JS.truthy. now destruct (port opts =? 0).
Qed.

(** ** The claims about [getPort] *)

Lemma getPort_direct (input : GetPortInput) (st : State) :
  direct_random (resolve (shorthand input)) = true ->
  getPort input st = getRandomPort (host (resolve (shorthand input))) st.
Proof. intros Hd. unfold getPort. now rewrite Hd. Qed.

(** When the primary stage left no port and an alternative range is
    given, the port finder is run on the whole expansion of that range. *)
Lemma alternativeStage_unfiltered (opts : GetPortOptions) (a1 : option PortNumber)
  (st1 : State) :
  JS.truthy_opt a1 = false -> alternativePortRange opts <> NoRange ->
  exists a st2 st3 notes,
    _findPort (expansion (alternativePortRange opts)) (host opts) st1 = (Ok a, st2)
    /\ alternativeStage opts a1 st1 = (Ok a, st3)
    /\ events_since st2 st3 notes /\ probed notes = [].
Proof.
  intros Ha Hrange.
  destruct (findPort_probed (host opts) (expansion (alternativePortRange opts)) st1)
    as (a & st2 & evs & Hfind & _ & _ & _).
  destruct (log_run (verbose opts)
              ("Unable to find an available port (tried "
                 ++ range_join (alternativePortRange opts) ++ " "
                 ++ _fmtOnHost (host opts) ++ "). Using alternative port "
                 ++ JS.string_of_opt a) st2)
    as (st3 & Hlog & Hev).
  exists a, st2, st3. eexists. split; [exact Hfind|]. split; [|split; [exact Hev|]].
  - unfold alternativeStage. rewrite Ha.
    replace (0 <? range_length (alternativePortRange opts)) with true
      by (destruct (alternativePortRange opts); [now elim Hrange | reflexivity]).
    cbn [negb andb].
    destruct (generateRange_run (alternativePortRange opts) false st1)
      as (l & st0 & Hgen & _ & Hasc).
    destruct (Hasc eq_refl) as [-> ->].
    rewrite (bind_ok _ _ _ _ _ Hgen), (bind_ok _ _ _ _ _ Hfind).
    now rewrite (bind_ok _ _ _ _ _ Hlog).
  - now destruct (verbose opts).
Qed.

(** C1, as amended.  The primary candidates are the requested port and
    the explicit ports (unless random is set) followed by the generated
    primary range, without the ports the filter drops: each of them is
    not 0 and safe.  Every port that a call of [getPort] probes is one of
    these filtered primary candidates, or a member of the alternative
    range, or port 0 or a port the system assigned to a probe of port 0;
    so an unsafe port among the explicit port, the explicit list and the
    primary range is dropped and never probed as such.  The alternative
    range gets no filter: when the primary stage left no port and the
    range is not empty, the port finder is run on its whole expansion. *)
Theorem getPort_probes_filtered_primary (input : GetPortInput) (st : State) :
  let opts := resolve (shorthand input) in
  exists generated st0 res st' evs,
    _generateRange (portRange opts) (random opts) st = (Ok generated, st0) /\
    getPort input st = (res, st') /\
    events_since st st' evs /\
    let candidates :=
      filter (fun p => JS.truthy p && isSafePort p)
        ((if random opts then [] else port opts :: ports opts) ++ generated) in
    (forall t, In t candidates -> t <> 0 /\ isSafePort t = true) /\
    (forall t, In t (probed evs) ->
       In t candidates
       \/ In t (expansion (alternativePortRange opts))
       \/ t = 0 \/ assigned evs t) /\
    (direct_random opts = false ->
     exists a1 st1, primaryStage opts st = (Ok a1, st1) /\
       (JS.truthy_opt a1 = false -> alternativePortRange opts <> NoRange ->
        exists a st2 st3 notes,
          _findPort (expansion (alternativePortRange opts)) (host opts) st1
          = (Ok a, st2)
          /\ candidateStages opts st = (Ok a, st3)
          /\ events_since st2 st3 notes /\ probed notes = [])).
Proof.
  intros opts.
  destruct (primaryStage_run opts st)
    as (generated & st0 & a1 & st1 & evs1 & Hgen & Hprim & Hev1 & Hin1 & _).
  cbn zeta in Hin1.
  assert (Hsafe : forall t,
             In t (filter kept
                     ((if random opts then [] else port opts :: ports opts)
                        ++ generated)) ->
             t <> 0 /\ isSafePort t = true).
  { intros t Ht. apply filter_In in Ht. now apply kept_nonzero. }
  destruct (direct_random opts) eqn:Hd.
  - destruct (getRandomPort_run (host opts) st) as (res & st' & evs & Hrun & Hev & Hin & _).
    exists generated, st0, res, st', evs. split; [exact Hgen|].
    split; [now rewrite (getPort_direct input st Hd)|]. split; [exact Hev|].
    cbn zeta. split; [exact Hsafe|]. split; [|discriminate].
    intros t Ht. destruct (Hin t Ht); tauto.
  - destruct (alternativeStage_run opts a1 st1)
      as (a & st2 & evs2 & Halt & Hev2 & Hin2 & _).
    assert (Hc : candidateStages opts st = (Ok a, st2)).
    { unfold candidateStages. now rewrite (bind_ok _ _ _ _ _ Hprim). }
    destruct (fallback_run (shorthand input) opts a st2)
      as (res & st' & evs3 & Hrun & Hev3 & Hin3).
    exists generated, st0, res, st', ((evs1 ++ evs2) ++ evs3). split; [exact Hgen|].
    split; [now rewrite (getPort_cascade input st st2 a Hd Hc)|].
    split.
    { apply events_since_trans with (st2 := st2); [|exact Hev3].
      exact (events_since_trans _ _ _ _ _ Hev1 Hev2). }
    cbn zeta. split; [exact Hsafe|]. split.
    + intros t Ht. rewrite !probed_app in Ht. apply in_app_or in Ht.
      destruct Ht as [Ht | Ht]; [apply in_app_or in Ht; destruct Ht as [Ht | Ht]|].
      * left. now apply Hin1.
      * destruct (Hin2 t Ht) as [Hl | Hass]; [tauto|].
        right. right. right. apply assigned_app_l. now apply assigned_app_r.
      * destruct (Hin3 t Ht) as [-> | Hass]; [tauto|].
        right. right. right. now apply assigned_app_r.
    + intros _. exists a1, st1. split; [exact Hprim|].
      intros Ha Hrange.
      destruct (alternativeStage_unfiltered opts a1 st1 Ha Hrange)
        as (a' & st2' & st3 & notes & Hfind & Halt' & Hnotes & Hnone).
      exists a', st2', st3, notes. split; [exact Hfind|].
      split; [|split; assumption].
      unfold candidateStages. now rewrite (bind_ok _ _ _ _ _ Hprim).
Qed.

(** C4.  The list of ports to check of the primary stage is the
    requested port, then the explicit ports (both left out when random
    is set), followed by the generated primary range (the expansion in
    ascending order unless random is set), minus the ports the filter
    drops, among them every 0: port 0 is not in the list, and the
    primary stage probes only ports of the list. *)
Theorem primary_candidates (opts : GetPortOptions) (st : State) :
  exists generated st0 st' a st1 evs,
    _generateRange (portRange opts) (random opts) st = (Ok generated, st0) /\
    (random opts = false -> generated = expansion (portRange opts)) /\
    let candidates :=
      filter (fun p => JS.truthy p && isSafePort p)
        ((if random opts then [] else port opts :: ports opts) ++ generated) in
    portsToCheck opts st = (Ok candidates, st') /\
    ~ In 0 candidates /\
    primaryStage opts st = (Ok a, st1) /\
    events_since st st1 evs /\
    (forall t, In t (probed evs) -> In t candidates).
Proof.
  destruct (portsToCheck_run opts st)
    as (generated & st0 & st' & evs0 & Hgen & Hports & _ & _).
  destruct (primaryStage_run opts st)
    as (generated' & st0' & a & st1 & evs & Hgen' & Hprim & Hev & Hin & _).
  rewrite Hgen in Hgen'. injection Hgen' as <- <-.
  exists generated, st0, st', a, st1, evs.
  split; [exact Hgen|]. split.
  { intros Hr. destruct (generateRange_run (portRange opts) (random opts) st)
      as (l & st3 & Hgen3 & _ & Hasc).
    rewrite Hgen in Hgen3. injection Hgen3 as <- <-. now apply Hasc. }
  cbn zeta. split; [exact Hports|]. split.
  { intros Hz. apply filter_In in Hz. destruct Hz as [_ Hz]. discriminate. }
  split; [exact Hprim|]. split; [exact Hev|]. exact Hin.
Qed.

Lemma not_attempted_here (st : State) : ~ random_fallback_attempted st st.
Proof.
  intros (h & r & evs & Heq).
  rewrite <- (app_nil_r (trace st)) in Heq at 1.
  apply app_inv_head in Heq. discriminate.
Qed.

(** C5.  For every call of [getPort], a probe of port 0 for a port
    assigned by the system follows the candidate stages exactly when they
    left no port and the caller did not set random to false; and when
    [getRandomPort] then resolves a port, that port is the outcome of
    [getPort].  On the direct random path the candidate stages are not run
    at all: they leave no port and the state as it was. *)
Theorem getPort_random_fallback (HP : PlatformOk P) (input : GetPortInput)
  (st : State) :
  let o := shorthand input in
  let opts := resolve o in
  exists a st2,
    (if direct_random opts then a = None /\ st2 = st
     else candidateStages opts st = (Ok a, st2)) /\
    (random_fallback_attempted st2 (snd (getPort input st))
     <-> JS.truthy_opt a = false /\ u_random o <> Some false) /\
    (forall q st3, JS.truthy_opt a = false -> u_random o <> Some false ->
       getRandomPort (host opts) st2 = (Ok q, st3) ->
       fst (getPort input st) = Ok q).
Proof.
  intros o opts. destruct (direct_random opts) eqn:Hd.
  - exists None, st. split; [now split|].
    rewrite (getPort_direct input st Hd). fold o opts.
    destruct (getRandomPort_sound HP (host opts) st)
      as (res & st3 & h & r & evs & Hrand & Hev & _).
    rewrite Hrand. cbn [snd fst]. split.
    + split; [|intros _; now exists h, r, evs].
      intros _. split; [reflexivity|]. intros Hfalse.
      unfold direct_random in Hd. apply andb_true_iff in Hd. destruct Hd as [Hr _].
      unfold opts in Hr. cbn [random resolve] in Hr. rewrite Hfalse in Hr.
      discriminate Hr.
    + intros q st3' _ _ [= <- _]. reflexivity.
  - destruct (candidateStages_run opts st) as (a & st2 & evs1 & Hc & _ & _).
    exists a, st2. split; [exact Hc|].
    rewrite (getPort_cascade input st st2 a Hd Hc). fold o opts.
    destruct (negb (JS.truthy_opt a) && random_not_disabled o) eqn:Hcond.
    + pose proof (fallback_taken o opts a st2 Hcond) as Htaken.
      destruct (getRandomPort_sound HP (host opts) st2)
        as (res & st3 & h & r & evs & Hrand & Hev & Hres).
      rewrite Hrand in Htaken |- *.
      apply andb_true_iff in Hcond. destruct Hcond as [Ha Hr].
      apply negb_true_iff in Ha. apply random_not_disabled_iff in Hr.
      destruct Hres as [-> | (q & -> & Hq)].
      * rewrite Htaken. split; [|intros q st3' _ _ [=]].
        split; [intros _; now split|]. intros _. exists h, r, evs. exact Hev.
      * replace (JS.truthy q) with true in Htaken
          by (unfold JS.truthy; destruct (Z.eqb_spec q 0); [lia | reflexivity]).
        destruct Htaken as (st' & -> & Hlog). split.
        -- split; [intros _; now split|]. intros _. exists h, r. eexists.
           exact (events_since_trans _ _ _ _ _ Hev Hlog).
        -- intros q' st3' _ _ [= <- _]. reflexivity.
    + rewrite (fallback_skipped o opts a st2 Hcond), finish_run. cbn [snd fst].
      split.
      * split; [intros Hatt; now apply not_attempted_here in Hatt|].
        intros [Ha Hr]. apply random_not_disabled_iff in Hr.
        rewrite Ha, Hr in Hcond. discriminate.
      * intros q st3 Ha Hr. apply random_not_disabled_iff in Hr.
        rewrite Ha, Hr in Hcond. discriminate.
Qed.

(** C6, as amended.  If random is true, or random is not given and the
    resolved requested port is 0, and no primary port range is given,
    [getPort] is [getRandomPort] on the resolved host: no candidate
    stage runs. *)
Theorem getPort_direct_random (input : GetPortInput) (st : State) :
  let o := shorthand input in
  u_random o = Some true \/ (u_random o = None /\ requested_port o = 0) ->
  JS.nullish (u_portRange o) NoRange = NoRange ->
  getPort input st = getRandomPort (host (resolve o)) st.
Proof.
  intros o Hrandom Hrange. apply getPort_direct. fold o.
  unfold direct_random. cbn [random portRange resolve]. rewrite Hrange.
  destruct Hrandom as [-> | [-> ->]]; reflexivity.
Qed.

(** C7, as amended.  Past the direct random path: when a candidate stage
    finds a port, [getPort] returns it and throws nothing; when none does
    and the caller set random to false, it throws the error whose message
    lists every non-empty item among the requested port, the port range
    and the alternative port range; when none does and random was not set
    to false, the outcome is that of [getRandomPort], whose own error
    lists none of them. *)
Theorem getPort_outcomes (input : GetPortInput) (st : State) :
  let o := shorthand input in
  let opts := resolve o in
  direct_random opts = false ->
  exists a st2, candidateStages opts st = (Ok a, st2) /\
    (forall q, a = Some q -> q <> 0 -> getPort input st = (Ok q, st2)) /\
    (JS.truthy_opt a = false -> u_random o = Some false ->
       getPort input st = (Throw (exhausted opts), st2)) /\
    (JS.truthy_opt a = false -> u_random o <> Some false ->
       match getRandomPort (host opts) st2 with
       | (Throw e, st3) =>
           e = random_error (host opts) /\ getPort input st = (Throw e, st3)
       | (Ok q, _) => q <> 0 -> fst (getPort input st) = Ok q
       end) /\
    message (exhausted opts)
    = ("Unable to find find available port " ++ _fmtOnHost (host opts)
         ++ " (tried " ++ JS.join ", " (tried_items opts) ++ ")")%string.
Proof.
  intros o opts Hd.
  destruct (candidateStages_run opts st) as (a & st2 & evs1 & Hc & _ & _).
  exists a, st2. split; [exact Hc|].
  rewrite (getPort_cascade input st st2 a Hd Hc). fold o opts.
  split; [|split; [|split]].
  - intros q -> Hq.
    assert (Ht : JS.truthy q = true)
      by (unfold JS.truthy; destruct (Z.eqb_spec q 0); [contradiction | reflexivity]).
    rewrite fallback_skipped, finish_run; simpl; now rewrite Ht.
  - intros Ha Hr.
    rewrite fallback_skipped, finish_run.
    + now rewrite Ha.
    + unfold random_not_disabled. rewrite Hr. apply andb_false_r.
  - intros Ha Hr. apply random_not_disabled_iff in Hr.
    assert (Hcond : negb (JS.truthy_opt a) && random_not_disabled o = true)
      by (now rewrite Ha, Hr).
    pose proof (fallback_taken o opts a st2 Hcond) as Htaken.
    destruct (getRandomPort_run (host opts) st2)
      as (res & st3 & evs & Hrand & _ & _ & Hres).
    rewrite Hrand in *. destruct Hres as [-> | (q & ->)].
    + now split.
    + intros Hq.
      replace (JS.truthy q) with true in Htaken
        by (unfold JS.truthy; destruct (Z.eqb_spec q 0); [contradiction | reflexivity]).
      destruct Htaken as (st' & -> & _). reflexivity.
  - unfold exhausted. cbn [message]. now rewrite triedRanges_items.
Qed.

(** C8.  Under the contract of the socket primitive, a port returned by
    [getPort] or by [getRandomPort] lies in [1, 65535]; in particular it
    is never the sentinel 0. *)
Theorem returned_port_in_range (HP : PlatformOk P) :
  (forall input st q st', getPort input st = (Ok q, st') -> 1 <= q <= 65535)
  /\ (forall host st q st', getRandomPort host st = (Ok q, st') -> 1 <= q <= 65535).
Proof.
  assert (Hrandom : forall host st q st',
             getRandomPort host st = (Ok q, st') -> 1 <= q <= 65535).
  { intros host st q st' Hrun.
    destruct (getRandomPort_sound HP host st)
      as (res & st3 & h & r & evs & Hrand & _ & Hres).
    rewrite Hrun in Hrand. injection Hrand as <- <-.
    destruct Hres as [Habs | (q' & [= ->] & Hq)]; [discriminate | exact Hq]. }
  split; [|exact Hrandom].
  intros input st q st' Hrun.
  set (o := shorthand input). set (opts := resolve o).
  destruct (direct_random opts) eqn:Hd.
  - unfold getPort in Hrun. fold o opts in Hrun. rewrite Hd in Hrun.
    exact (Hrandom _ _ _ _ Hrun).
  - destruct (candidateStages_run opts st) as (a & st2 & evs1 & Hc & _ & _).
    rewrite (getPort_cascade input st st2 a Hd Hc) in Hrun. fold o opts in Hrun.
    destruct (negb (JS.truthy_opt a) && random_not_disabled o) eqn:Hcond.
    + pose proof (fallback_taken o opts a st2 Hcond) as Htaken.
      destruct (getRandomPort (host opts) st2) as [[q0|e] st3] eqn:Hrand.
      * destruct (JS.truthy q0).
        -- destruct Htaken as (st4 & Heq & _). rewrite Heq in Hrun.
           injection Hrun as -> _. exact (Hrandom _ _ _ _ Hrand).
        -- rewrite Htaken in Hrun. discriminate.
      * rewrite Htaken in Hrun. discriminate.
    + rewrite (fallback_skipped o opts a st2 Hcond), finish_run in Hrun.
      destruct a as [q0|]; simpl in Hrun; [|discriminate].
      destruct (JS.truthy q0) eqn:Ht; [|discriminate].
      injection Hrun as Hq _. subst q0.
      apply (candidateStages_sound HP opts st st2 q Hc).
      unfold JS.truthy in Ht. intros ->. discriminate.
Qed.

(** C9.  A string shorthand that [parseInt] reads as NaN becomes the
    requested port 0, which sets the random flag, and [getPort] is then
    [getRandomPort] on the host taken from the environment. *)
Theorem getPort_non_numeric_string (s : string) (st : State) :
  JS.parseInt s = None ->
  u_port (shorthand (InString s)) = Some 0
  /\ random (resolve (shorthand (InString s))) = true
  /\ getPort (InString s) st
     = getRandomPort (_validateHostname env_HOST None None) st.
Proof.
  intros Hnan.
  assert (Hport : u_port (shorthand (InString s)) = Some 0).
  { cbn [shorthand u_port]. now rewrite append_empty_r, Hnan. }
  split; [exact Hport|].
  assert (Hreq : requested_port (shorthand (InString s)) = 0).
  { unfold requested_port. now rewrite Hport. }
  split.
  - cbn [random resolve]. rewrite Hreq. reflexivity.
  - rewrite getPort_direct; [reflexivity|].
    unfold direct_random. cbn [random portRange resolve]. now rewrite Hreq.
Qed.

(** ** [waitForPort] *)

Lemma sleep_run (ms : Z) (st : State) :
  sleep ms st
  = (Ok tt, {| world := elapse (world st) ms; trace := trace st ++ [Sleep ms] |}).
Proof. reflexivity. Qed.

Lemma waitForPort_loop_spec (p : PortNumber) (h : HostAddress) (d : Z)
  (e : GetPortError) (n : nat) :
  forall st : State,
    exists res st' bound, waitForPort_loop n p h d e st = (res, st') /\
      ((res = Ok tt /\ (List.length bound < n)%nat
        /\ events_since st st' (rounds p h d bound ++ [Probe p h None]))
       \/ (res = Throw e /\ List.length bound = n
           /\ events_since st st' (rounds p h d bound))).
Proof.
  induction n as [|n IH]; intros st.
  - exists (Throw e), st, []. split; [reflexivity|]. right.
    split; [reflexivity|]. split; [reflexivity|]. apply events_since_refl.
  - destruct (tryPort_run p h st) as (r & w & _ & Hrun).
    cbn [waitForPort_loop]. rewrite (bind_ok _ _ _ _ _ Hrun).
    destruct r as [q|].
    + rewrite (bind_ok _ _ _ _ _ (sleep_run d _)). cbn [world trace].
      destruct (IH {| world := elapse w d;
                      trace := (trace st ++ [Probe p h (Some q)]) ++ [Sleep d] |})
        as (res & st' & bound & Hloop & Hcase).
      exists res, st', (q :: bound). split; [exact Hloop|].
      unfold events_since in *. cbn [trace] in Hcase.
      destruct Hcase as [(-> & Hlen & Hev) | (-> & Hlen & Hev)]; [left | right];
        (split; [reflexivity|]); (split; [simpl; lia|]);
        rewrite Hev; cbn [rounds flat_map app]; now rewrite <- !app_assoc.
    + exists (Ok tt), {| world := w; trace := trace st ++ [Probe p h None] |}, [].
      split; [reflexivity|]. left. split; [reflexivity|].
      split; [simpl; lia|]. reflexivity.
Qed.

(** C3, as amended.  [waitForPort] polls with the delay [d] and the
    budget [r] it was given, where a delay of 0 (or none) stands for 500
    and a budget of 0 (or none) for 4.  It returns as soon as a probe
    finds the port not bindable, after fewer than [r] rounds of probe and
    sleep and without sleeping after that probe; if [r] probes in a row
    find the port bindable, each followed by a sleep of [d], it throws
    the timeout error naming the port, [r] and [d]. *)
Theorem waitForPort_polling (p : PortNumber) (o : WaitForPortOptions) (st : State) :
  let d := JS.or_else (delay o) 500 in
  let r := JS.or_else (retries o) 4 in
  exists res st' bound, waitForPort p o st = (res, st') /\
    ((res = Ok tt /\ (List.length bound < Z.to_nat r)%nat
      /\ events_since st st' (rounds p (w_host o) d bound ++ [Probe p (w_host o) None]))
     \/ (res = Throw (timeout_error p r d) /\ List.length bound = Z.to_nat r
         /\ events_since st st' (rounds p (w_host o) d bound))).
Proof.
  intros d r. unfold waitForPort. fold d r.
  exact (waitForPort_loop_spec p (w_host o) d (timeout_error p r d) (Z.to_nat r) st).
Qed.

End Proofs.

(* ------------------------------------------------------------------ *)
(** * Further properties of [checkPort] and [getRandomPort] *)

Section CheckPortFacts.
Context {P : Platform}.

Lemma checkPort_resolved (p : PortNumber) (host : HostArg) (v : option bool) :
  (exists h, resolved_hosts host = [h] /\ checkPort p host v = _tryPort p h)
  \/ checkPort p host v = checkPort_loop p (resolved_hosts host) v.
Proof.
  unfold checkPort, resolved_hosts. destruct host as [[[|c s]|]|hs].
  - now right.
  - left. now exists (Some (String c s)).
  - destruct env_HOST as [[|c s]|].
    + now right.
    + left. now exists (Some (String c s)).
    + now right.
  - now right.
Qed.

Lemma resolved_single_nonempty (HP : PlatformOk P) (h : HostAddress) :
  resolved_hosts (Host1 h) <> [].
Proof.
  unfold resolved_hosts. destruct h as [[|c s]|].
  - apply (localHosts_nonempty HP).
  - discriminate.
  - destruct env_HOST as [[|c s]|];
      [apply (localHosts_nonempty HP) | discriminate | apply (localHosts_nonempty HP)].
Qed.

(** The all-or-nothing behaviour for every form of the host argument. *)
Lemma checkPort_validated (HP : PlatformOk P) (p : PortNumber) (host : HostArg)
  (v : option bool) (st : State) :
  exists res st' evs, checkPort p host v st = (Ok res, st') /\
    events_since st st' evs /\
    ((res = None /\ some_probe_failed evs)
     \/ (exists q, res = Some q
            /\ evs = validated p q (resolved_hosts host)
            /\ ~ some_probe_failed evs
            /\ (resolved_hosts host <> [] -> 1 <= q <= 65535 /\ (p <> 0 -> q = p)))).
Proof.
  destruct (checkPort_resolved p host v) as [(h & Hres & ->) | ->].
  - rewrite Hres. destruct (tryPort_run p h st) as (r & w & Hl & ->).
    exists r. eexists. exists [Probe p h r]. split; [reflexivity|].
    split; [reflexivity|]. destruct r as [q|].
    + right. exists q. split; [reflexivity|]. split; [reflexivity|].
      split; [apply (no_failure_in_validated p q [h])|].
      intros _. exact (listen_bound P HP _ _ _ _ _ Hl).
    + left. split; [reflexivity|]. exists p, h. now left.
  - destruct (checkPort_loop_spec HP p (resolved_hosts host) v st)
      as (res & st' & evs & Hrun & Hev & Hcase).
    destruct Hcase as [(-> & Hfail) | (q & -> & -> & _ & Hq)].
    + exists None, st', evs. split; [exact Hrun|]. split; [exact Hev|]. now left.
    + exists (Some q), st'. eexists. split; [exact Hrun|]. split; [exact Hev|].
      right. exists q. split; [reflexivity|]. split; [reflexivity|].
      split; [apply no_failure_in_validated | exact Hq].
Qed.

(** X5.  Whatever form the host argument takes (a list, one address,
    the empty string, [undefined] with or without [process.env.HOST]),
    [checkPort] returns [false] with a failed probe in its trace, or a
    port [q] after binding it on every resolved address in order: [p] on
    the first, [q] on the others. *)
Theorem checkPort_every_host_form (HP : PlatformOk P) (p : PortNumber)
  (host : HostArg) (v : option bool) (st : State) :
  exists res st' evs, checkPort p host v st = (Ok res, st') /\
    events_since st st' evs /\
    ((res = None /\ some_probe_failed evs)
     \/ (exists q, res = Some q
            /\ evs = validated p q (resolved_hosts host)
            /\ ~ some_probe_failed evs
            /\ (resolved_hosts host <> [] -> 1 <= q <= 65535 /\ (p <> 0 -> q = p)))).
Proof. exact (checkPort_validated HP p host v st). Qed.

Lemma getRandomPort_validated (HP : PlatformOk P) (host : HostAddress) (st : State) :
  exists res st' evs, getRandomPort host st = (res, st') /\
    events_since st st' evs /\
    ((res = Throw (random_error host) /\ some_probe_failed evs)
     \/ (exists q, res = Ok q /\ 1 <= q <= 65535
            /\ evs = validated 0 q (resolved_hosts (Host1 host)))).
Proof.
  destruct (checkPort_validated HP 0 (Host1 host) None st)
    as (res & st' & evs & Hrun & Hev & Hcase).
  unfold getRandomPort. rewrite (bind_ok _ _ _ _ _ Hrun).
  destruct Hcase as [(-> & Hfail) | (q & -> & Hevs & _ & Hq)].
  - exists (Throw (random_error host)), st', evs. split; [reflexivity|].
    split; [exact Hev|]. now left.
  - exists (Ok q), st', evs. split; [reflexivity|]. split; [exact Hev|].
    right. exists q. split; [reflexivity|]. split; [|exact Hevs].
    apply Hq. apply (resolved_single_nonempty HP).
Qed.

(** X4.  [getRandomPort] either throws its error after a failed bind, or
    returns a port of [1, 65535] that the system assigned to a probe of
    port 0 on the first resolved address and that was then bound on every
    other resolved address. *)
Theorem getRandomPort_assigned_everywhere (HP : PlatformOk P) (host : HostAddress)
  (st : State) :
  exists res st' evs, getRandomPort host st = (res, st') /\
    events_since st st' evs /\
    ((res = Throw (random_error host) /\ some_probe_failed evs)
     \/ (exists q, res = Ok q /\ 1 <= q <= 65535
            /\ evs = validated 0 q (resolved_hosts (Host1 host)))).
Proof. exact (getRandomPort_validated HP host st). Qed.

(** The loop probes the addresses in order and stops at the first one
    that fails. *)
Lemma checkPort_loop_prefix (hs : list HostAddress) :
  forall (p : PortNumber) (v : option bool) (st : State),
    exists res st' evs, checkPort_loop p hs v st = (Ok res, st') /\
      events_since st st' evs /\
      match res with
      | Some _ => probe_hosts evs = hs /\ ~ some_probe_failed evs
      | None =>
          exists done h rest evs0 t notes,
            hs = done ++ h :: rest
            /\ evs = evs0 ++ Probe t h None :: notes
            /\ probe_hosts evs0 = done
            /\ ~ some_probe_failed evs0
            /\ probed notes = []
      end.
Proof.
  induction hs as [|h rest IH]; intros p v st.
  - exists (Some p), st, []. split; [reflexivity|].
    split; [apply events_since_refl|]. split; [reflexivity|].
    intros (t & h & []).
  - destruct (checkPort_loop_step p h rest v st) as (r & w & _ & Hstep).
    cbn zeta in Hstep. destruct r as [q|].
    + destruct (IH (if (p =? 0) && negb (q =? 0) then q else p) v
                  {| world := w; trace := trace st ++ [Probe p h (Some q)] |})
        as (res & st' & evs & Hrun & Hev & Hcase).
      exists res, st', (Probe p h (Some q) :: evs).
      split; [now rewrite Hstep|].
      split; [now apply events_after_probe with (w := w)|].
      destruct res as [b|].
      * destruct Hcase as [Hhosts Hok]. split; [simpl; now rewrite Hhosts|].
        intros (t & h' & [Hin | Hin]); [discriminate|].
        apply Hok. now exists t, h'.
      * destruct Hcase as (done & h0 & rest0 & evs0 & t & notes
                             & -> & -> & Hhosts & Hok & Hnotes).
        exists (h :: done), h0, rest0, (Probe p h (Some q) :: evs0), t, notes.
        split; [reflexivity|]. split; [reflexivity|].
        split; [simpl; now rewrite Hhosts|]. split; [|exact Hnotes].
        intros (t' & h' & [Hin | Hin]); [discriminate|].
        apply Hok. now exists t', h'.
    + destruct Hstep as (st' & notes & Hrun & Hev & Hnotes).
      exists None, st', (Probe p h None :: notes). split; [exact Hrun|].
      split; [now apply events_after_probe with (w := w)|].
      exists [], h, rest, [], p, notes.
      split; [reflexivity|]. split; [reflexivity|]. split; [reflexivity|].
      split; [|exact Hnotes]. intros (t & h' & []).
Qed.

(** X1.  [checkPort] on a host list probes the addresses in list order
    and stops at the first failed bind: when it returns a port every
    address was probed and none failed; when it returns [false] only the
    addresses up to the failing one were probed, and the ones after it
    never are. *)
Theorem checkPort_stops_at_first_failure (p : PortNumber) (hs : list HostAddress)
  (v : option bool) (st : State) :
  exists res st' evs, checkPort p (Hosts hs) v st = (Ok res, st') /\
    events_since st st' evs /\
    match res with
    | Some _ => probe_hosts evs = hs /\ ~ some_probe_failed evs
    | None =>
        exists done h rest evs0 t notes,
          hs = done ++ h :: rest
          /\ evs = evs0 ++ Probe t h None :: notes
          /\ probe_hosts evs0 = done
          /\ ~ some_probe_failed evs0
          /\ probed notes = []
    end.
Proof. exact (checkPort_loop_prefix hs p v st). Qed.

Lemma nonzero_port_kept (p q : PortNumber) :
  p <> 0 -> (if (p =? 0) && negb (q =? 0) then q else p) = p.
Proof. intros Hp. now destruct (Z.eqb_spec p 0). Qed.

(** X2.  For a port other than 0 and a host list, whatever the sockets
    report, [checkPort] probes that port only and returns that port or
    [false]. *)
Theorem checkPort_fixed_port (p : PortNumber) (hs : list HostAddress)
  (v : option bool) (st : State) :
  p <> 0 ->
  exists res st' evs, checkPort p (Hosts hs) v st = (Ok res, st') /\
    events_since st st' evs /\
    (res = None \/ res = Some p) /\
    (forall t, In t (probed evs) -> t = p).
Proof.
  intros Hp. cbn [checkPort]. revert st.
  induction hs as [|h rest IH]; intros st.
  - exists (Some p), st, []. split; [reflexivity|].
    split; [apply events_since_refl|]. split; [now right | intros t []].
  - destruct (checkPort_loop_step p h rest v st) as (r & w & _ & Hstep).
    cbn zeta in Hstep. destruct r as [q|].
    + rewrite (nonzero_port_kept p q Hp) in Hstep.
      destruct (IH {| world := w; trace := trace st ++ [Probe p h (Some q)] |})
        as (res & st' & evs & Hrun & Hev & Hres & Hin).
      exists res, st', (Probe p h (Some q) :: evs).
      split; [now rewrite Hstep|].
      split; [now apply events_after_probe with (w := w)|].
      split; [exact Hres|]. intros t [<- | Ht]; [reflexivity | now apply Hin].
    + destruct Hstep as (st' & notes & Hrun & Hev & Hnotes).
      exists None, st', (Probe p h None :: notes). split; [exact Hrun|].
      split; [now apply events_after_probe with (w := w)|].
      split; [now left|]. simpl. rewrite Hnotes. intros t [<- | []]. reflexivity.
Qed.

(** The loop writes no log line unless verbose is set and the port is
    below 1024. *)
Lemma checkPort_loop_silent (hs : list HostAddress) :
  forall (p : PortNumber) (v : option bool) (st : State),
    JS.truthy_flag v = false \/ 1024 <= p ->
    exists res st' evs, checkPort_loop p hs v st = (Ok res, st') /\
      events_since st st' evs /\ Forall is_probe evs.
Proof.
  induction hs as [|h rest IH]; intros p v st Hquiet.
  - exists (Some p), st, []. split; [reflexivity|].
    split; [apply events_since_refl | constructor].
  - destruct (tryPort_run p h st) as (r & w & _ & Hrun).
    cbn [checkPort_loop]. rewrite (bind_ok _ _ _ _ _ Hrun).
    destruct r as [q|].
    + assert (Hnext : JS.truthy_flag v = false
                      \/ 1024 <= (if (p =? 0) && negb (q =? 0) then q else p)).
      { destruct Hquiet as [Hv | Hp]; [now left|]. right.
        rewrite nonzero_port_kept; lia. }
      destruct (IH _ v {| world := w; trace := trace st ++ [Probe p h (Some q)] |} Hnext)
        as (res & st' & evs & Hloop & Hev & Hall).
      exists res, st', (Probe p h (Some q) :: evs). split; [exact Hloop|].
      split; [now apply events_after_probe with (w := w)|].
      constructor; [exact I | exact Hall].
    + replace ((p <? 1024) && JS.truthy_flag v) with false.
      * eexists. eexists. exists [Probe p h None]. split; [reflexivity|].
        split; [reflexivity|]. constructor; [exact I | constructor].
      * destruct Hquiet as [-> | Hp]; [now rewrite andb_false_r|].
        destruct (Z.ltb_spec p 1024); [lia | reflexivity].
Qed.

Lemma checkPort_silent (p : PortNumber) (host : HostArg) (v : option bool)
  (st : State) :
  JS.truthy_flag v = false \/ 1024 <= p ->
  exists res st' evs, checkPort p host v st = (Ok res, st') /\
    events_since st st' evs /\ Forall is_probe evs.
Proof.
  intros Hquiet.
  destruct (checkPort_resolved p host v) as [(h & _ & ->) | ->].
  - destruct (tryPort_run p h st) as (r & w & _ & ->).
    exists r. eexists. exists [Probe p h r]. split; [reflexivity|].
    split; [reflexivity|]. constructor; [exact I | constructor].
  - now apply checkPort_loop_silent.
Qed.

(** X3.  For a port of [0, 65535], [checkPort] can write a log line
    only when verbose is set and the port is below 1024: if verbose is not
    set or the port is at least 1024, then however the call ends, all it
    did was probe. *)
Theorem checkPort_logs_only_privileged (p : PortNumber) (host : HostArg)
  (v : option bool) (st : State) :
  0 <= p <= 65535 ->
  JS.truthy_flag v = false \/ 1024 <= p ->
  forall res st', checkPort p host v st = (res, st') ->
    exists evs, events_since st st' evs /\ Forall is_probe evs.
Proof.
  intros _ Hquiet res st' Hrun.
  destruct (checkPort_silent p host v st Hquiet) as (r & st1 & evs & Hrun' & Hev & Hall).
  rewrite Hrun in Hrun'. injection Hrun' as -> ->.
  now exists evs.
Qed.

End CheckPortFacts.

(* ------------------------------------------------------------------ *)
(** * Further properties of [getPort] and [waitForPort] *)

Section GetPortFacts.
Context {P : Platform}.

Lemma truthy_nonzero (q : PortNumber) : JS.truthy q = true <-> q <> 0.
Proof.
  unfold JS.truthy. destruct (Z.eqb_spec q 0); split; intros H;
    try congruence; try reflexivity. now elim H.
Qed.

(** Without verbose the filter of lines 55-64 leaves the state alone. *)
Lemma filter_ports_quiet (l : list PortNumber) (st : State) :
  filter_ports false l st = (Ok (filter kept l), st).
Proof.
  induction l as [|p rest IH]; [reflexivity|].
  cbn [filter_ports filter]. unfold kept at 1.
  destruct (JS.truthy p); cbn [negb andb].
  - destruct (isSafePort p); cbn [negb].
    + rewrite (bind_ok _ _ st st true eq_refl).
      now rewrite (bind_ok _ _ _ _ _ IH).
    + erewrite bind_ok; [|erewrite bind_ok; reflexivity].
      now rewrite (bind_ok _ _ _ _ _ IH).
  - rewrite (bind_ok _ _ st st false eq_refl).
    now rewrite (bind_ok _ _ _ _ _ IH).
Qed.

(** The filter only writes log lines: the world is as before. *)
Lemma filter_ports_world (v : bool) (l : list PortNumber) :
  forall st : State,
    exists st', filter_ports v l st = (Ok (filter kept l), st')
                /\ world st' = world st.
Proof.
  induction l as [|p rest IH]; intros st.
  - now exists st.
  - cbn [filter_ports filter]. unfold kept at 1.
    destruct (JS.truthy p); cbn [negb andb].
    + destruct (isSafePort p); cbn [negb].
      * destruct (IH st) as (st' & Hrun & Hw). exists st'. split; [|exact Hw].
        rewrite (bind_ok _ _ st st true eq_refl).
        now rewrite (bind_ok _ _ _ _ _ Hrun).
      * set (st1 := if v
                    then {| world := world st;
                            trace := trace st
                                       ++ [Log ("Ignoring unsafe port: "
                                                  ++ JS.string_of_Z p)] |}
                    else st).
        assert (Hlog : _log v ("Ignoring unsafe port: " ++ JS.string_of_Z p) st
                       = (Ok tt, st1)) by (unfold _log, st1; now destruct v).
        destruct (IH st1) as (st' & Hrun & Hw). exists st'. split.
        -- erewrite bind_ok; [|erewrite bind_ok; [reflexivity | exact Hlog]].
           now rewrite (bind_ok _ _ _ _ _ Hrun).
        -- rewrite Hw. unfold st1. now destruct v.
    + destruct (IH st) as (st' & Hrun & Hw). exists st'. split; [|exact Hw].
      rewrite (bind_ok _ _ st st false eq_refl).
      now rewrite (bind_ok _ _ _ _ _ Hrun).
Qed.

(** X6.  When random is off and the requested port is not 0 and safe,
    it is the first port to check; if its check succeeds, [getPort]
    returns exactly that port, and nothing else is probed. *)
Theorem getPort_requested_port_free (input : GetPortInput) (st : State) :
  let opts := resolve (shorthand input) in
  random opts = false ->
  kept (port opts) = true ->
  exists rest st0,
    portsToCheck opts st = (Ok (port opts :: rest), st0)
    /\ world st0 = world st
    /\ forall b st1,
         checkPort (port opts) (Host1 (host opts)) None st0 = (Ok (Some b), st1) ->
         getPort input st = (Ok (port opts), st1).
Proof.
  intros opts Hrandom Hkept.
  destruct (generateRange_run (portRange opts) false st)
    as (generated & st00 & Hgen & _ & Hasc).
  destruct (Hasc eq_refl) as [-> ->].
  destruct (filter_ports_world (verbose opts)
              ((port opts :: ports opts) ++ expansion (portRange opts)) st)
    as (st0 & Hfilter & Hworld).
  cbn [app filter] in Hfilter. rewrite Hkept in Hfilter.
  assert (Hports : portsToCheck opts st
                   = (Ok (port opts
                            :: filter kept (ports opts ++ expansion (portRange opts))),
                      st0)).
  { unfold portsToCheck. rewrite Hrandom.
    now rewrite (bind_ok _ _ _ _ _ Hgen). }
  exists (filter kept (ports opts ++ expansion (portRange opts))), st0.
  split; [exact Hports|]. split; [exact Hworld|].
  intros b st1 Hcheck.
  assert (Hd : direct_random opts = false) by (unfold direct_random; now rewrite Hrandom).
  assert (Hprimary : primaryStage opts st = (Ok (Some (port opts)), st1)).
  { unfold primaryStage. rewrite (bind_ok _ _ _ _ _ Hports).
    cbn [_findPort]. now rewrite (bind_ok _ _ _ _ _ Hcheck). }
  assert (Htruthy : JS.truthy (port opts) = true).
  { apply truthy_nonzero. now apply kept_nonzero. }
  assert (Hcand : candidateStages opts st = (Ok (Some (port opts)), st1)).
  { unfold candidateStages. rewrite (bind_ok _ _ _ _ _ Hprimary).
    unfold alternativeStage. cbn [JS.truthy_opt]. now rewrite Htruthy. }
  rewrite (getPort_cascade input st st1 _ Hd Hcand).
  rewrite fallback_skipped, finish_run.
  - cbn [JS.truthy_opt JS.nullish]. now rewrite Htruthy.
  - cbn [JS.truthy_opt]. now rewrite Htruthy.
Qed.

(** X7.  With [{port: p}] for a port other than 0 and neither [ports]
    nor a range (so that the default alternative range is off), [getPort]
    probes only [p], port 0, and ports the system assigned to a probe of
    port 0. *)
Theorem getPort_pinned_port_probes (o : UserOptions) (p : PortNumber) (st : State) :
  u_port o = Some p -> p <> 0 ->
  u_ports o = None -> u_portRange o = None -> u_alternativePortRange o = None ->
  exists res st' evs, getPort (InOptions o) st = (res, st') /\
    events_since st st' evs /\
    forall t, In t (probed evs) -> t = p \/ t = 0 \/ assigned evs t.
Proof.
  intros Hport Hp Hports Hrange Halt.
  set (opts := resolve o).
  assert (Hopts : port opts = p /\ ports opts = [] /\ portRange opts = NoRange
                  /\ alternativePortRange opts = NoRange).
  { unfold opts, resolve, requested_port. cbn.
    rewrite Hport, Hports, Hrange, Halt. cbn.
    now rewrite (proj2 (truthy_nonzero p) Hp). }
  destruct Hopts as (Hp' & Hps & Hr & Ha).
  destruct (direct_random opts) eqn:Hd.
  - destruct (getRandomPort_run (host opts) st) as (res & st' & evs & Hrun & Hev & Hin & _).
    exists res, st', evs. split; [|split; [exact Hev|]].
    + now rewrite (getPort_direct (InOptions o) st Hd).
    + intros t Ht. right. now apply Hin.
  - destruct (primaryStage_run opts st)
      as (generated & st0 & a1 & st1 & evs1 & Hgen & Hprim & Hev1 & Hin1 & _).
    rewrite Hr in Hgen. cbn in Hgen. injection Hgen as <- <-.
    rewrite Hp', Hps, app_nil_r in Hin1.
    destruct (alternativeStage_run opts a1 st1)
      as (a & st2 & evs2 & Halts & Hev2 & Hin2 & _).
    rewrite Ha in Hin2. cbn [expansion] in Hin2.
    destruct (fallback_run o opts a st2) as (res & st' & evs3 & Hrun & Hev3 & Hin3).
    assert (Hcand : candidateStages opts st = (Ok a, st2)).
    { unfold candidateStages. now rewrite (bind_ok _ _ _ _ _ Hprim). }
    exists res, st', ((evs1 ++ evs2) ++ evs3). split; [|split].
    + now rewrite (getPort_cascade (InOptions o) st st2 a Hd Hcand).
    + apply events_since_trans with (st2 := st2); [|exact Hev3].
      exact (events_since_trans _ _ _ _ _ Hev1 Hev2).
    + intros t Ht. rewrite !probed_app in Ht.
      apply in_app_or in Ht. destruct Ht as [Ht | Ht].
      * apply in_app_or in Ht. destruct Ht as [Ht | Ht].
        -- left. apply Hin1 in Ht. apply filter_In in Ht. destruct Ht as [Ht _].
           destruct (random opts); cbn in Ht; [contradiction|].
           destruct Ht as [<- | []]. reflexivity.
        -- destruct (Hin2 t Ht) as [[] | Hass].
           right. right. apply assigned_app_l. now apply assigned_app_r.
      * destruct (Hin3 t Ht) as [-> | Hass]; [tauto|].
        right. right. now apply assigned_app_r.
Qed.

(** X9.  With a negative retry budget [waitForPort] throws the timeout
    error at once, naming that budget, without a probe or a sleep. *)
Theorem waitForPort_negative_budget (p : PortNumber) (o : WaitForPortOptions)
  (r : Z) (st : State) :
  retries o = Some r -> r < 0 ->
  waitForPort p o st = (Throw (timeout_error p r (JS.or_else (delay o) 500)), st).
Proof.
  intros Hr Hneg. unfold waitForPort. rewrite Hr. cbn [JS.or_else].
  rewrite (proj2 (truthy_nonzero r)) by lia.
  replace (Z.to_nat r) with O by lia. reflexivity.
Qed.

(** X12.  When random is set to false, no alternative range applies and
    the filter leaves no candidate (the requested port, the explicit ports
    and the port range are all 0 or unsafe), [getPort] throws the error
    that lists what was tried without a single probe. *)
Theorem getPort_nothing_to_check (o : UserOptions) (st : State) :
  let opts := resolve o in
  u_random o = Some false ->
  alternativePortRange opts = NoRange ->
  filter kept (port opts :: ports opts ++ expansion (portRange opts)) = [] ->
  exists st' evs,
    getPort (InOptions o) st = (Throw (exhausted opts), st')
    /\ events_since st st' evs /\ probed evs = [] /\ world st' = world st.
Proof.
  intros opts Hrandom Halt Hnone.
  assert (Hr : random opts = false) by (unfold opts, resolve; cbn; now rewrite Hrandom).
  assert (Hd : direct_random opts = false) by (unfold direct_random; now rewrite Hr).
  destruct (portsToCheck_run opts st)
    as (generated & st0 & st1 & evs & Hgen & Hports & Hev & Hprobed).
  destruct (generateRange_run (portRange opts) (random opts) st)
    as (l & st0' & Hgen' & _ & Hasc).
  rewrite Hgen in Hgen'. injection Hgen' as <- <-.
  destruct (Hasc Hr) as [-> ->].
  destruct (filter_ports_world (verbose opts)
              ((port opts :: ports opts) ++ expansion (portRange opts)) st)
    as (st1' & Hfilter & Hworld).
  assert (Hsame : st1' = st1).
  { unfold portsToCheck in Hports. rewrite (bind_ok _ _ _ _ _ Hgen), Hr in Hports.
    rewrite Hfilter in Hports. now injection Hports. }
  subst st1'. rewrite Hr in Hports. cbn [app] in Hports. rewrite Hnone in Hports.
  assert (Hcand : candidateStages opts st = (Ok None, st1)).
  { unfold candidateStages, primaryStage. erewrite bind_ok.
    2:{ rewrite (bind_ok _ _ _ _ _ Hports). reflexivity. }
    unfold alternativeStage. rewrite Halt. reflexivity. }
  exists st1, evs.
  split; [|split; [exact Hev | split; [exact Hprobed | exact Hworld]]].
  rewrite (getPort_cascade (InOptions o) st st1 None Hd Hcand).
  rewrite fallback_skipped, finish_run; [reflexivity|].
  unfold random_not_disabled. cbn [shorthand]. now rewrite Hrandom.
Qed.

(** ** Silence without verbose *)

Lemma findPort_silent (host : HostAddress) (l : list PortNumber) :
  forall st : State,
    exists res st' evs, _findPort l host st = (Ok res, st') /\
      events_since st st' evs /\ Forall is_probe evs.
Proof.
  induction l as [|p rest IH]; intros st.
  - exists None, st, []. split; [reflexivity|].
    split; [apply events_since_refl | constructor].
  - destruct (checkPort_silent p (Host1 host) None st (or_introl eq_refl))
      as (r & st1 & evs1 & Hcheck & Hev1 & Hall1).
    cbn [_findPort]. rewrite (bind_ok _ _ _ _ _ Hcheck).
    destruct r as [b|].
    + exists (Some p), st1, evs1. now repeat split.
    + destruct (IH st1) as (res & st' & evs2 & Hrun & Hev2 & Hall2).
      exists res, st', (evs1 ++ evs2). split; [exact Hrun|].
      split; [exact (events_since_trans _ _ _ _ _ Hev1 Hev2)|].
      apply Forall_app. now split.
Qed.

Lemma getRandomPort_silent (host : HostAddress) (st : State) :
  exists res st' evs, getRandomPort host st = (res, st') /\
    events_since st st' evs /\ Forall is_probe evs.
Proof.
  destruct (checkPort_silent 0 (Host1 host) None st (or_introl eq_refl))
    as (r & st' & evs & Hcheck & Hev & Hall).
  unfold getRandomPort. rewrite (bind_ok _ _ _ _ _ Hcheck).
  destruct r as [q|]; eexists; exists st', evs; (split; [reflexivity|]); now split.
Qed.

Lemma candidateStages_silent (opts : GetPortOptions) (st : State) :
  verbose opts = false ->
  exists a st2 evs, candidateStages opts st = (Ok a, st2) /\
    events_since st st2 evs /\ Forall is_probe evs.
Proof.
  intros Hquiet.
  destruct (generateRange_run (portRange opts) (random opts) st)
    as (generated & st0 & Hgen & Hev0 & _).
  destruct (findPort_silent (host opts)
              (filter kept
                 ((if random opts then [] else port opts :: ports opts) ++ generated))
              st0)
    as (a1 & st1 & evs1 & Hfind & Hev1 & Hall1).
  assert (Hprimary : primaryStage opts st = (Ok a1, st1)).
  { unfold primaryStage, portsToCheck. rewrite Hquiet.
    erewrite bind_ok; [exact Hfind|].
    rewrite (bind_ok _ _ _ _ _ Hgen). apply filter_ports_quiet. }
  unfold candidateStages. rewrite (bind_ok _ _ _ _ _ Hprimary).
  unfold alternativeStage.
  destruct (negb (JS.truthy_opt a1) && (0 <? range_length (alternativePortRange opts))).
  - destruct (generateRange_run (alternativePortRange opts) false st1)
      as (l & st1' & Hgen2 & _ & Hasc).
    destruct (Hasc eq_refl) as [-> ->].
    destruct (findPort_silent (host opts) (expansion (alternativePortRange opts)) st1)
      as (a & st2 & evs2 & Hfind2 & Hev2 & Hall2).
    exists a, st2, (evs1 ++ evs2). split; [|split].
    + rewrite (bind_ok _ _ _ _ _ Hgen2), (bind_ok _ _ _ _ _ Hfind2).
      rewrite Hquiet. reflexivity.
    + apply events_since_trans with (st2 := st1); [|exact Hev2].
      exact (events_since_trans _ _ _ _ _ Hev0 Hev1).
    + apply Forall_app. now split.
  - exists a1, st1, evs1. split; [reflexivity|]. split; [|exact Hall1].
    exact (events_since_trans _ _ _ _ _ Hev0 Hev1).
Qed.

(** X10.  Unless verbose is set, [getPort] writes no log line and never
    sleeps: its trace consists of probes alone. *)
Theorem getPort_silent_without_verbose (input : GetPortInput) (st : State) :
  verbose (resolve (shorthand input)) = false ->
  exists res st' evs, getPort input st = (res, st') /\
    events_since st st' evs /\ Forall is_probe evs.
Proof.
  intros Hquiet. set (o := shorthand input). set (opts := resolve o).
  fold o opts in Hquiet.
  destruct (direct_random opts) eqn:Hd.
  - rewrite (getPort_direct input st Hd). apply getRandomPort_silent.
  - destruct (candidateStages_silent opts st Hquiet) as (a & st2 & evs1 & Hc & Hev1 & Hall1).
    rewrite (getPort_cascade input st st2 a Hd Hc). fold o opts.
    destruct (negb (JS.truthy_opt a) && random_not_disabled o) eqn:Hcond.
    + pose proof (fallback_taken o opts a st2 Hcond) as Htaken.
      destruct (getRandomPort_silent (host opts) st2)
        as (res & st3 & evs2 & Hrand & Hev2 & Hall2).
      rewrite Hrand, Hquiet in Htaken.
      assert (Hev : events_since st st3 (evs1 ++ evs2))
        by exact (events_since_trans _ _ _ _ _ Hev1 Hev2).
      assert (Hall : Forall is_probe (evs1 ++ evs2)) by (apply Forall_app; now split).
      destruct res as [q|e].
      * destruct (JS.truthy q).
        -- destruct Htaken as (st' & -> & Hlog).
           exists (Ok q), st', (evs1 ++ evs2). split; [reflexivity|].
           split; [|exact Hall].
           rewrite <- (app_nil_r (evs1 ++ evs2)).
           exact (events_since_trans _ _ _ _ _ Hev Hlog).
        -- rewrite Htaken. now exists (Throw (exhausted opts)), st3, (evs1 ++ evs2).
      * rewrite Htaken. now exists (Throw e), st3, (evs1 ++ evs2).
    + rewrite (fallback_skipped o opts a st2 Hcond), finish_run.
      eexists. exists st2, evs1. now repeat split.
Qed.

(** ** Where a returned port comes from *)

Lemma validated_assigned (q : PortNumber) (hs : list HostAddress) :
  hs <> [] -> assigned (validated 0 q hs) q.
Proof.
  destruct hs as [|h rest]; [intros H; now elim H|].
  intros _. exists h. now left.
Qed.

(** X11.  Under the socket contract a port returned by [getPort] is one
    of the filtered primary candidates (the requested port and the
    explicit ports, unless random is set, followed by the generated
    primary range, without the ports the filter drops), or a member of the
    alternative range, or a port the system assigned to a probe of port 0
    during the call. *)
Theorem getPort_returns_candidate_or_assigned (HP : PlatformOk P)
  (input : GetPortInput) (st st' : State) (q : PortNumber) :
  let opts := resolve (shorthand input) in
  getPort input st = (Ok q, st') ->
  exists generated st0 evs,
    _generateRange (portRange opts) (random opts) st = (Ok generated, st0) /\
    events_since st st' evs /\
    (In q (filter (fun p => JS.truthy p && isSafePort p)
             ((if random opts then [] else port opts :: ports opts) ++ generated))
     \/ In q (expansion (alternativePortRange opts))
     \/ assigned evs q).
Proof.
  intros opts Hrun. set (o := shorthand input). fold o in opts.
  assert (Hrandom : forall st0 st1 q0,
             getRandomPort (host opts) st0 = (Ok q0, st1) ->
             exists evs, events_since st0 st1 evs /\ assigned evs q0).
  { intros st0 st1 q0 Hrand.
    destruct (getRandomPort_validated HP (host opts) st0)
      as (res & st3 & evs & Hrand' & Hev & Hcase).
    rewrite Hrand in Hrand'. injection Hrand' as <- <-.
    destruct Hcase as [(Habs & _) | (q' & [= <-] & _ & ->)]; [discriminate|].
    eexists. split; [exact Hev|].
    apply validated_assigned, (resolved_single_nonempty HP). }
  destruct (primaryStage_run opts st)
    as (generated & st0 & a1 & st1 & evs1 & Hgen & Hprim & Hev1 & _ & Hres1).
  cbn zeta in Hres1.
  exists generated, st0.
  destruct (direct_random opts) eqn:Hd.
  - rewrite (getPort_direct input st Hd) in Hrun.
    destruct (Hrandom _ _ _ Hrun) as (evs & Hev & Hass).
    exists evs. split; [exact Hgen|]. split; [exact Hev|]. now right; right.
  - destruct (alternativeStage_run opts a1 st1)
      as (a & st2 & evs2 & Halt & Hev2 & _ & Hres2).
    assert (Hcand : candidateStages opts st = (Ok a, st2)).
    { unfold candidateStages. now rewrite (bind_ok _ _ _ _ _ Hprim). }
    assert (Hev12 : events_since st st2 (evs1 ++ evs2))
      by exact (events_since_trans _ _ _ _ _ Hev1 Hev2).
    rewrite (getPort_cascade input st st2 a Hd Hcand) in Hrun. fold o opts in Hrun.
    destruct (negb (JS.truthy_opt a) && random_not_disabled o) eqn:Hcond.
    + pose proof (fallback_taken o opts a st2 Hcond) as Htaken.
      destruct (getRandomPort (host opts) st2) as [[q0|e] st3] eqn:Hrand.
      * destruct (JS.truthy q0).
        -- destruct Htaken as (st4 & Heq & Hlog). rewrite Heq in Hrun.
           injection Hrun as -> ->.
           destruct (Hrandom _ _ _ Hrand) as (evs3 & Hev3 & Hass).
           eexists. split; [exact Hgen|]. split.
           ++ apply events_since_trans with (st2 := st3); [|exact Hlog].
              exact (events_since_trans _ _ _ _ _ Hev12 Hev3).
           ++ right. right. apply assigned_app_l. now apply assigned_app_r.
        -- rewrite Htaken in Hrun. discriminate.
      * rewrite Htaken in Hrun. discriminate.
    + rewrite (fallback_skipped o opts a st2 Hcond), finish_run in Hrun.
      destruct a as [q0|]; cbn in Hrun; [|discriminate].
      destruct (JS.truthy q0); [|discriminate].
      injection Hrun as -> ->.
      exists (evs1 ++ evs2). split; [exact Hgen|]. split; [exact Hev12|].
      destruct (Hres2 q eq_refl) as [-> | Hin]; [|tauto].
      left. exact (Hres1 q eq_refl).
Qed.

End GetPortFacts.

(* ------------------------------------------------------------------ *)
(** * The number shorthand: printing and parsing back *)

(** Read one decimal digit of a printed number. *)
Ltac read_digit :=
  cbn [JS.digits];
  match goal with
  | |- context [JS.digitValue ?c] =>
      let v := eval vm_compute in (JS.digitValue c) in
      change (JS.digitValue c) with v
  end;
  cbv beta iota;
  match goal with
  | |- context [?k <? 10] => change (k <? 10) with true
  end;
  cbv beta iota; cbn [JS.nullish].

Lemma digits_of_uint_acc (d : Decimal.uint) :
  forall acc : positive,
    JS.digits 10 (NilEmpty.string_of_uint d) (Some (Z.pos acc))
    = Some (Z.pos (Pos.of_uint_acc d acc)).
Proof.
  induction d; intros acc; cbn [NilEmpty.string_of_uint Pos.of_uint_acc];
    [reflexivity | ..];
    read_digit; rewrite <- IHd; f_equal; f_equal; lia.
Qed.

Lemma digits_of_uint (d : Decimal.uint) :
  JS.digits 10 (NilEmpty.string_of_uint d) (Some 0)
  = Some (Z.of_N (Pos.of_uint d)).
Proof.
  induction d; cbn [NilEmpty.string_of_uint Pos.of_uint];
    [reflexivity | read_digit; exact IHd | ..];
    read_digit; apply digits_of_uint_acc.
Qed.

(** A printed natural number has no sign, no blank and no hexadecimal
    prefix in front. *)
Lemma parseInt_of_uint (d : Decimal.uint) :
  d <> Decimal.Nil ->
  JS.parseInt (NilEmpty.string_of_uint d)
  = option_map (Z.mul 1) (JS.digits 10 (NilEmpty.string_of_uint d) (Some 0)).
Proof.
  intros Hd. destruct d as [|d|d|d|d|d|d|d|d|d|d];
    [now elim Hd | destruct d | ..]; reflexivity.
Qed.

Lemma parseInt_of_negated_uint (d : Decimal.uint) :
  d <> Decimal.Nil ->
  JS.parseInt (String "-" (NilEmpty.string_of_uint d))
  = option_map (Z.mul (-1)) (JS.digits 10 (NilEmpty.string_of_uint d) (Some 0)).
Proof.
  intros Hd. destruct d as [|d|d|d|d|d|d|d|d|d|d];
    [now elim Hd | destruct d | ..]; reflexivity.
Qed.

Lemma string_of_nonnil_uint (d : Decimal.uint) :
  d <> Decimal.Nil -> NilZero.string_of_uint d = NilEmpty.string_of_uint d.
Proof. destruct d; [intros H; now elim H | reflexivity ..]. Qed.

Lemma parseInt_string_of_Z (n : Z) : JS.parseInt (JS.string_of_Z n) = Some n.
Proof.
  unfold JS.string_of_Z. destruct n as [|p|p]; [reflexivity | |].
  - cbn [Z.to_int NilZero.string_of_int].
    rewrite (string_of_nonnil_uint _ (DecimalPos.Unsigned.to_uint_nonnil p)).
    rewrite (parseInt_of_uint _ (DecimalPos.Unsigned.to_uint_nonnil p)).
    rewrite digits_of_uint, DecimalPos.Unsigned.of_to. reflexivity.
  - cbn [Z.to_int NilZero.string_of_int].
    rewrite (string_of_nonnil_uint _ (DecimalPos.Unsigned.to_uint_nonnil p)).
    rewrite (parseInt_of_negated_uint _ (DecimalPos.Unsigned.to_uint_nonnil p)).
    rewrite digits_of_uint, DecimalPos.Unsigned.of_to. reflexivity.
Qed.

Section Shorthand.
Context {P : Platform}.

Lemma or_else_self (n : Z) : JS.or_else (Some n) 0 = n.
Proof.
  unfold JS.or_else, JS.truthy. destruct (Z.eqb_spec n 0); [now subst | reflexivity].
Qed.

(** X8.  The number shorthand survives its trip through a string: for
    every safe integer [n] (below 2^53 in absolute value, so that
    [n + ""] is its decimal digits), [getPort(n)] and [getPort(`${n}`)]
    are [getPort({port: n})]. *)
Theorem getPort_number_shorthand (n : Z) (st : State) :
  Z.abs n < 2 ^ 53 ->
  getPort (InNumber n) st = getPort (InOptions (only_port n)) st
  /\ getPort (InString (JS.string_of_Z n)) st = getPort (InOptions (only_port n)) st.
Proof.
  intros _.
  assert (Hn : shorthand (InNumber n) = only_port n).
  { cbn [shorthand]. rewrite append_empty_r, parseInt_string_of_Z, or_else_self.
    reflexivity. }
  assert (Hs : shorthand (InString (JS.string_of_Z n)) = only_port n).
  { cbn [shorthand]. rewrite append_empty_r, parseInt_string_of_Z, or_else_self.
    reflexivity. }
  unfold getPort. rewrite Hn, Hs. now split.
Qed.

End Shorthand.

(* ------------------------------------------------------------------ *)
(** * The statements on the concrete platform *)

Section Examples.
Import Demo.

Lemma demo_platform_ok : PlatformOk Demo.platform.
Proof.
  split.
  - intros w p h q w'. cbn [listen platform]. unfold demo_listen.
    destruct (mem _ (occupied w) || _ || _) eqn:Hfree; [discriminate|].
    intros [= <- _].
    apply orb_false_iff in Hfree. destruct Hfree as [Hfree Hhigh].
    apply orb_false_iff in Hfree. destruct Hfree as [_ Hlow].
    destruct (Z.eqb_spec p 0) as [Hp|Hp]; [|lia]. lia.
  - intros l h Hin. cbn [_getLocalHosts platform]. apply in_or_app. now left.
Qed.

(** The end-to-end examples of the specification, on the model. *)
Example getPort_free_port :
  fst (getPort (InOptions (port_only 4321)) all_free) = Ok 4321.
Proof. reflexivity. Qed.

Example getPort_occupied_uses_alternative :
  fst (getPort (InOptions with_alternative) (start [[4321]])) = Ok 5000.
Proof. reflexivity. Qed.

Example waitForPort_already_occupied :
  waitForPort 8080 {| delay := Some 10; retries := Some 2; w_host := None |}
    (start [[8080]])
  = (Ok tt, {| world := [[8080]]; trace := [Probe 8080 None None] |}).
Proof. reflexivity. Qed.

Example waitForPort_comes_up :
  waitForPort 8080 {| delay := Some 10; retries := Some 2; w_host := None |}
    (start [[]; [8080]])
  = (Ok tt, {| world := [[8080]];
               trace := [Probe 8080 None (Some 8080); Sleep 10; Probe 8080 None None] |}).
Proof. reflexivity. Qed.

Example parseInt_examples :
  JS.parseInt "8080" = Some 8080 /\ JS.parseInt "  42px" = Some 42
  /\ JS.parseInt "-0x1F" = Some (-31) /\ JS.parseInt "px" = None
  /\ JS.parseInt "" = None.
Proof. repeat split. Qed.


(** C1 as stated fails: with port 4321 occupied, the unsafe port 6000 of
    the alternative range is probed. *)
Lemma getPort_probes_unsafe_alternative :
  let run := getPort (InOptions with_unsafe_alternative) (start [[4321]]) in
  isSafePort 6000 = false
  /\ In 6000 (probed (trace (snd run)))
  /\ ~ (forall t, In t (probed (trace (snd run))) -> isSafePort t = true).
Proof.
  cbv zeta.
  assert (Hin : In 6000 (probed (trace (snd (getPort (InOptions with_unsafe_alternative)
                                                (start [[4321]])))))).
  { vm_compute. right. left. reflexivity. }
  split; [reflexivity|]. split; [exact Hin|].
  intros Hall. apply Hall in Hin. discriminate Hin.
Qed.

(** C3 as stated fails for the budget 0: the port stays free, and the
    timeout comes after four probes and names four retries, not after
    none. *)
Lemma waitForPort_zero_budget :
  let o := {| delay := Some 10; retries := Some 0; w_host := None |} in
  let run := waitForPort 8080 o all_free in
  fst run = Throw (timeout_error 8080 4 10)
  /\ probed (trace (snd run)) = [8080; 8080; 8080; 8080]
  /\ ~ (exists bound,
           fst run = Throw (timeout_error 8080 0 10)
           /\ List.length bound = Z.to_nat 0
           /\ events_since all_free (snd run) (rounds 8080 None 10 bound)).
Proof.
  cbv zeta. split; [reflexivity|]. split; [reflexivity|].
  intros (bound & Hres & _). vm_compute in Hres. discriminate Hres.
Qed.

(** The request [{port: 4321}] while 4321 is occupied. *)
Lemma getPort_random_fallback_witness :
  let input := InOptions (port_only 4321) in
  let st := start [[4321]] in
  let o := shorthand input in
  let opts := resolve o in
  PlatformOk Demo.platform
  /\ exists a st2,
       (if direct_random opts then a = None /\ st2 = st
        else candidateStages opts st = (Ok a, st2)) /\
       (random_fallback_attempted st2 (snd (getPort input st))
        <-> JS.truthy_opt a = false /\ u_random o <> Some false) /\
       (forall q st3, JS.truthy_opt a = false -> u_random o <> Some false ->
          getRandomPort (host opts) st2 = (Ok q, st3) ->
          fst (getPort input st) = Ok q).
Proof.
  cbv zeta. split; [exact demo_platform_ok|].
  exact (getPort_random_fallback demo_platform_ok
           (InOptions (port_only 4321)) (start [[4321]])).
Defined.

(** C6 as stated fails: with [{port: 0, random: false}] the requested
    port is 0 and there is no port range, yet the candidate stages run
    and port 3000 of the default alternative range is returned. *)
Lemma getPort_zero_port_random_false :
  let o := zero_not_random in
  (requested_port o = 0 /\ JS.nullish (u_portRange o) NoRange = NoRange)
  /\ fst (getPort (InOptions o) all_free) = Ok 3000
  /\ getPort (InOptions o) all_free <> getRandomPort (host (resolve o)) all_free.
Proof.
  cbv zeta. split; [split; reflexivity|]. split; [reflexivity|].
  intros Heq. vm_compute in Heq. discriminate Heq.
Qed.

(** The shorthand [getPort(0)]. *)
Lemma getPort_direct_random_witness :
  let input := InNumber 0 in
  let o := shorthand input in
  (u_random o = Some true \/ (u_random o = None /\ requested_port o = 0))
  /\ JS.nullish (u_portRange o) NoRange = NoRange
  /\ getPort input all_free = getRandomPort (host (resolve o)) all_free.
Proof.
  cbv zeta.
  assert (Hrandom : u_random (shorthand (InNumber 0)) = Some true
                    \/ (u_random (shorthand (InNumber 0)) = None
                        /\ requested_port (shorthand (InNumber 0)) = 0)).
  { right. split; reflexivity. }
  split; [exact Hrandom|]. split; [reflexivity|].
  exact (getPort_direct_random (InNumber 0) all_free Hrandom eq_refl).
Defined.

(** C7 as stated fails: with 4321 and the ephemeral port both taken,
    every stage fails, and the error is the one of [getRandomPort], which
    does not list the port that was tried. *)
Lemma getPort_random_error_lists_nothing :
  let o := port_only 4321 in
  let run := getPort (InOptions o) (start [[4321; 49152]]) in
  fst (candidateStages (resolve o) (start [[4321; 49152]])) = Ok None
  /\ fst run = Throw {| message := "Unable to find any random port on any host" |}
  /\ fst run <> Throw (exhausted (resolve o)).
Proof.
  cbv zeta. split; [reflexivity|]. split; [reflexivity|].
  intros Heq. vm_compute in Heq. discriminate Heq.
Qed.

(** The request [{port: 4321, random: false}] while 4321 is occupied. *)
Lemma getPort_outcomes_witness :
  let input := InOptions pinned_4321 in
  let st := start [[4321]] in
  let o := shorthand input in
  let opts := resolve o in
  direct_random opts = false
  /\ exists a st2, candidateStages opts st = (Ok a, st2) /\
    (forall q, a = Some q -> q <> 0 -> getPort input st = (Ok q, st2)) /\
    (JS.truthy_opt a = false -> u_random o = Some false ->
       getPort input st = (Throw (exhausted opts), st2)) /\
    (JS.truthy_opt a = false -> u_random o <> Some false ->
       match getRandomPort (host opts) st2 with
       | (Throw e, st3) =>
           e = random_error (host opts) /\ getPort input st = (Throw e, st3)
       | (Ok q, _) => q <> 0 -> fst (getPort input st) = Ok q
       end) /\
    message (exhausted opts)
    = ("Unable to find find available port " ++ _fmtOnHost (host opts)
         ++ " (tried " ++ JS.join ", " (tried_items opts) ++ ")")%string.
Proof.
  cbv zeta. split; [reflexivity|].
  apply (getPort_outcomes (InOptions pinned_4321) (start [[4321]])).
  reflexivity.
Defined.

(** The request [{port: 4321}] while 4321 is occupied returns the
    ephemeral port. *)
Lemma returned_port_in_range_witness :
  PlatformOk Demo.platform
  /\ exists q st',
       getPort (InOptions (port_only 4321)) (start [[4321]]) = (Ok q, st')
       /\ 1 <= q <= 65535.
Proof.
  split; [exact demo_platform_ok|].
  eexists. eexists. split; [vm_compute; reflexivity|].
  apply (proj1 (returned_port_in_range demo_platform_ok)
           (InOptions (port_only 4321)) (start [[4321]]) _ _ eq_refl).
Defined.

(** [getPort("abc")]. *)
Lemma getPort_non_numeric_string_witness :
  JS.parseInt "abc" = None
  /\ u_port (shorthand (InString "abc")) = Some 0
  /\ random (resolve (shorthand (InString "abc"))) = true
  /\ getPort (InString "abc") all_free
     = getRandomPort (_validateHostname env_HOST None None) all_free.
Proof.
  split; [reflexivity|].
  apply (getPort_non_numeric_string "abc" all_free). reflexivity.
Defined.

End Examples.

(* ------------------------------------------------------------------ *)
(** * The further properties on the concrete platform *)

Section MoreExamples.
Import Demo.

(** [checkPort(8080, ["127.0.0.1", "::1"])]. *)
Lemma checkPort_fixed_port_witness :
  8080 <> 0
  /\ exists res st' evs,
       checkPort 8080 (Hosts [Some "127.0.0.1"; Some "::1"]) None all_free = (Ok res, st')
       /\ events_since all_free st' evs
       /\ (res = None \/ res = Some 8080)
       /\ (forall t, In t (probed evs) -> t = 8080).
Proof.
  assert (H : 8080 <> 0) by lia.
  split; [exact H|].
  exact (checkPort_fixed_port 8080 [Some "127.0.0.1"; Some "::1"] None all_free H).
Defined.

(** [checkPort(80)] without verbose, port 80 occupied. *)
Lemma checkPort_logs_only_privileged_witness :
  0 <= 80 <= 65535
  /\ (JS.truthy_flag None = false \/ 1024 <= 80)
  /\ exists evs,
       events_since (start [[80]])
         (snd (checkPort 80 (Host1 None) None (start [[80]]))) evs
       /\ Forall is_probe evs.
Proof.
  assert (Hrange : 0 <= 80 <= 65535) by lia.
  assert (H : JS.truthy_flag None = false \/ 1024 <= 80) by (left; reflexivity).
  split; [exact Hrange|]. split; [exact H|].
  exact (checkPort_logs_only_privileged 80 (Host1 None) None (start [[80]]) Hrange H
           _ _ eq_refl).
Defined.

(** [getRandomPort()] with every port free. *)
Lemma getRandomPort_assigned_everywhere_witness :
  PlatformOk Demo.platform
  /\ exists res st' evs, getRandomPort None all_free = (res, st')
       /\ events_since all_free st' evs
       /\ ((res = Throw (random_error None) /\ some_probe_failed evs)
           \/ (exists q, res = Ok q /\ 1 <= q <= 65535
                  /\ evs = validated 0 q (resolved_hosts (Host1 None)))).
Proof.
  split; [exact demo_platform_ok|].
  exact (getRandomPort_assigned_everywhere demo_platform_ok None all_free).
Defined.

(** [checkPort(4321, "")]: the empty string stands for the local hosts. *)
Lemma checkPort_every_host_form_witness :
  PlatformOk Demo.platform
  /\ exists res st' evs,
       checkPort 4321 (Host1 (Some "")) None all_free = (Ok res, st')
       /\ events_since all_free st' evs
       /\ ((res = None /\ some_probe_failed evs)
           \/ (exists q, res = Some q
                  /\ evs = validated 4321 q (resolved_hosts (Host1 (Some "")))
                  /\ ~ some_probe_failed evs
                  /\ (resolved_hosts (Host1 (Some "")) <> [] ->
                      1 <= q <= 65535 /\ (4321 <> 0 -> q = 4321)))).
Proof.
  split; [exact demo_platform_ok|].
  exact (checkPort_every_host_form demo_platform_ok 4321 (Host1 (Some "")) None all_free).
Defined.

(** [getPort({port: 4321})] with every port free. *)
Lemma getPort_requested_port_free_witness :
  let input := InOptions (port_only 4321) in
  let opts := resolve (shorthand input) in
  random opts = false /\ kept (port opts) = true
  /\ exists rest st0,
       portsToCheck opts all_free = (Ok (port opts :: rest), st0)
       /\ world st0 = world all_free
       /\ forall b st1,
            checkPort (port opts) (Host1 (host opts)) None st0 = (Ok (Some b), st1) ->
            getPort input all_free = (Ok (port opts), st1).
Proof.
  cbv zeta. split; [reflexivity|]. split; [reflexivity|].
  exact (getPort_requested_port_free (InOptions (port_only 4321)) all_free
           eq_refl eq_refl).
Defined.

(** [getPort({port: 4321})] with 4321 occupied. *)
Lemma getPort_pinned_port_probes_witness :
  4321 <> 0
  /\ exists res st' evs,
       getPort (InOptions (port_only 4321)) (start [[4321]]) = (res, st')
       /\ events_since (start [[4321]]) st' evs
       /\ forall t, In t (probed evs) -> t = 4321 \/ t = 0 \/ assigned evs t.
Proof.
  assert (H : 4321 <> 0) by lia.
  split; [exact H|].
  exact (getPort_pinned_port_probes (port_only 4321) 4321 (start [[4321]])
           eq_refl H eq_refl eq_refl eq_refl).
Defined.

(** [waitForPort(8080, {delay: 10, retries: -1})]. *)
Lemma waitForPort_negative_budget_witness :
  let o := {| delay := Some 10; retries := Some (-1); w_host := None |} in
  -1 < 0
  /\ waitForPort 8080 o all_free
     = (Throw (timeout_error 8080 (-1) (JS.or_else (delay o) 500)), all_free).
Proof.
  cbv zeta. assert (H : -1 < 0) by lia.
  split; [exact H|].
  exact (waitForPort_negative_budget 8080
           {| delay := Some 10; retries := Some (-1); w_host := None |}
           (-1) all_free eq_refl H).
Defined.

(** [getPort({port: 4321})] with 4321 occupied writes nothing. *)
Lemma getPort_silent_without_verbose_witness :
  let input := InOptions (port_only 4321) in
  verbose (resolve (shorthand input)) = false
  /\ exists res st' evs, getPort input (start [[4321]]) = (res, st')
       /\ events_since (start [[4321]]) st' evs /\ Forall is_probe evs.
Proof.
  cbv zeta. split; [reflexivity|].
  exact (getPort_silent_without_verbose (InOptions (port_only 4321)) (start [[4321]])
           eq_refl).
Defined.

(** [getPort({port: 4321})] with 4321 occupied returns an assigned port. *)
Lemma getPort_returns_candidate_or_assigned_witness :
  let input := InOptions (port_only 4321) in
  let opts := resolve (shorthand input) in
  PlatformOk Demo.platform
  /\ exists q st',
       getPort input (start [[4321]]) = (Ok q, st')
       /\ exists generated st0 evs,
            _generateRange (portRange opts) (random opts) (start [[4321]])
            = (Ok generated, st0)
            /\ events_since (start [[4321]]) st' evs
            /\ (In q (filter (fun p => JS.truthy p && isSafePort p)
                        ((if random opts then [] else port opts :: ports opts)
                           ++ generated))
                \/ In q (expansion (alternativePortRange opts))
                \/ assigned evs q).
Proof.
  cbv zeta. split; [exact demo_platform_ok|].
  eexists. eexists. split; [vm_compute; reflexivity|].
  exact (getPort_returns_candidate_or_assigned demo_platform_ok
           (InOptions (port_only 4321)) (start [[4321]]) _ _ eq_refl).
Defined.

(** [getPort({port: 25, random: false})]. *)
Lemma getPort_nothing_to_check_witness :
  let opts := resolve unsafe_pinned in
  u_random unsafe_pinned = Some false
  /\ alternativePortRange opts = NoRange
  /\ filter kept (port opts :: ports opts ++ expansion (portRange opts)) = []
  /\ exists st' evs,
       getPort (InOptions unsafe_pinned) all_free = (Throw (exhausted opts), st')
       /\ events_since all_free st' evs /\ probed evs = []
       /\ world st' = world all_free.
Proof.
  cbv zeta. split; [reflexivity|]. split; [reflexivity|]. split; [reflexivity|].
  exact (getPort_nothing_to_check unsafe_pinned all_free eq_refl eq_refl eq_refl).
Defined.

(** [getPort(8080)]. *)
Lemma getPort_number_shorthand_witness :
  Z.abs 8080 < 2 ^ 53
  /\ getPort (InNumber 8080) all_free = getPort (InOptions (only_port 8080)) all_free
  /\ getPort (InString (JS.string_of_Z 8080)) all_free
     = getPort (InOptions (only_port 8080)) all_free.
Proof.
  assert (H : Z.abs 8080 < 2 ^ 53) by (vm_compute; reflexivity).
  split; [exact H|].
  exact (getPort_number_shorthand 8080 all_free H).
Defined.

End MoreExamples.
